(** * Mission Pinball Framework: the real-time event core

    A shallow embedding of [mpf/system/timing.py], [mpf/system/switch_controller.py]
    and [mpf/devices/accelerometer.py] (Python 2 code: [iteritems], integer [/]),
    and of [mpf/platforms/base_serial_communicator.py] (asyncio coroutines,
    modelled by the outcomes of the reads they await).

    Modelling conventions.
    - Python floats are IEEE doubles: Rocq's primitive [float] ([PrimFloat]).
      Python's float division raises [ZeroDivisionError] on a zero divisor where
      IEEE would return an infinity or NaN; [py_div] writes that out.
    - A Python exception is a value of [exn]; a call that may raise returns a
      [result], or a pair of the (already mutated) state and an [option exn]
      when the code mutates state before it raises.
    - User callbacks are opaque: calling one appends its identifier, with the
      current tick, to a log; it then returns or raises, as a given function
      of the log says.  They do not re-enter the modelled objects.
    - A Python [dict] whose iteration order matters is an association list:
      in iteration order for the lists of [accelerometer.py]; in insertion
      order for [active_timed_switches], with the order Python iterates it in
      a separate function.  Where the order does not matter, a stdpp [gmap]. *)

From Stdlib Require Import ZArith Floats Lia Ascii String.
From Stdlib Require Strings.Byte.
From stdpp Require Import base strings gmap list pretty.

Open Scope Z_scope.

(** ** Python runtime fragments *)

Inductive exn :=
| KeyError
| TypeError
| ValueError
| ZeroDivisionError
| OverflowError
| CallbackRaised (cb : nat).

Inductive result (A : Type) :=
| Ok (a : A)
| Err (e : exn).
Arguments Ok {A} a.
Arguments Err {A} e.

Definition rbind {A B} (m : result A) (k : A -> result B) : result B :=
  match m with Ok a => k a | Err e => Err e end.

Notation "'let*' x := m 'in' k" := (rbind m (fun x => k))
  (at level 200, x name, m at level 100, k at level 200).

Module Py.

(** [a / b] on Python floats. *)
Definition py_div (a b : float) : result float :=
  if (b =? 0)%float then Err ZeroDivisionError else Ok (a / b)%float.

(** [int(f)] for a Python float: truncation toward zero. *)
Definition py_int (f : float) : result Z :=
  match Prim2SF f with
  | S754_zero _ => Ok 0
  | S754_infinity _ => Err OverflowError
  | S754_nan => Err ValueError
  | S754_finite s m e =>
      let v := if 0 <=? e then Z.pos m * 2 ^ e else Z.pos m / 2 ^ (- e) in
      Ok (if s then - v else v)
  end.

(** [int(math.ceil(f))] for a Python float (Python 2: [math.ceil] returns a
    float, which is always integral and exactly the mathematical ceiling). *)
Definition py_int_ceil (f : float) : result Z :=
  match Prim2SF f with
  | S754_zero _ => Ok 0
  | S754_infinity _ => Err OverflowError
  | S754_nan => Err ValueError
  | S754_finite s m e =>
      if 0 <=? e then Ok ((if s then -1 else 1) * (Z.pos m * 2 ^ e))
      else if s then Ok (- (Z.pos m / 2 ^ (- e)))
      else Ok ((Z.pos m + 2 ^ (- e) - 1) / 2 ^ (- e))
  end.

(** [float(n)] for a Python integer: round to nearest even, [OverflowError]
    when the magnitude exceeds the largest double. *)
Definition py_float_of_Z (n : Z) : result float :=
  let f := SF2Prim (binary_normalize prec emax n 0 false) in
  if is_infinity f then Err OverflowError else Ok f.

(** *** Python 2 [str] methods on ASCII strings *)

Definition is_lower (c : ascii) : bool :=
  let n := nat_of_ascii c in (97 <=? n)%nat && (n <=? 122)%nat.
Definition is_upper (c : ascii) : bool :=
  let n := nat_of_ascii c in (65 <=? n)%nat && (n <=? 90)%nat.

(** [c.isalpha()] *)
Definition isalpha (c : ascii) : bool := is_lower c || is_upper c.

(** [s.upper()] *)
Fixpoint upper (s : string) : string :=
  match s with
  | EmptyString => EmptyString
  | String c r =>
      String (if is_lower c then ascii_of_nat (nat_of_ascii c - 32) else c) (upper r)
  end.

(** [s.endswith(suf)] *)
Definition endswith (s suf : string) : bool :=
  let n := String.length s in
  let m := String.length suf in
  (m <=? n)%nat && String.eqb (String.substring (n - m) m s) suf.

(** [''.join(i for i in s if not i.isalpha())] *)
Fixpoint drop_alpha (s : string) : string :=
  match s with
  | EmptyString => EmptyString
  | String c r => if isalpha c then drop_alpha r else String c (drop_alpha r)
  end.

(** *** [float(s)] for a string

    After [drop_alpha] no letter is left, so the forms Python accepts reduce to
    optional surrounding whitespace, an optional sign and a decimal literal
    [digits[.digits]] with at least one digit.  The value is the double
    nearest to [n / 10^k] (ties to even), as Python's correctly rounded
    conversion gives; an overflow yields an infinity, as in Python. *)

Definition is_space (c : ascii) : bool :=
  let n := nat_of_ascii c in (n =? 32)%nat || ((9 <=? n)%nat && (n <=? 13)%nat).

Definition is_digit (c : ascii) : bool :=
  let n := nat_of_ascii c in (48 <=? n)%nat && (n <=? 57)%nat.

Fixpoint strip_left (s : string) : string :=
  match s with
  | String c r => if is_space c then strip_left r else s
  | EmptyString => EmptyString
  end.

Fixpoint rev_onto (s acc : string) : string :=
  match s with
  | String c r => rev_onto r (String c acc)
  | EmptyString => acc
  end.

(** [s.strip()] *)
Definition strip (s : string) : string :=
  rev_onto (strip_left (rev_onto (strip_left s) EmptyString)) EmptyString.

(** Digits of [s] read as [(value, number of digits, rest)]. *)
Fixpoint read_digits (s : string) (acc : Z) (k : nat) : Z * nat * string :=
  match s with
  | String c r =>
      if is_digit c then read_digits r (10 * acc + Z.of_nat (nat_of_ascii c - 48)) (S k)
      else (acc, k, s)
  | EmptyString => (acc, k, EmptyString)
  end.

(** The double nearest to [(-1)^neg * n / 10^k]. *)
Definition decimal_to_float (neg : bool) (n : Z) (k : nat) : float :=
  match n with
  | Z0 => if neg then (-0)%float else 0%float
  | _ =>
      let '(q, e', loc) := SFdiv_core_binary prec emax n 0 (10 ^ Z.of_nat k) 0 in
      SF2Prim (binary_round_aux prec emax neg q e' loc)
  end.

Definition py_float_str (s : string) : result float :=
  let s := strip s in
  let '(neg, body) :=
    match s with
    | String "-" r => (true, r)
    | String "+" r => (false, r)
    | _ => (false, s)
    end in
  let '(n1, k1, rest) := read_digits body 0 0 in
  let '(n, k2, rest') :=
    match rest with
    | String "." r => read_digits r n1 0
    | _ => (n1, 0%nat, EmptyString)
    end in
  let has_point := match rest with String "." _ => true | _ => false end in
  let rest_ok := if has_point then String.eqb rest' EmptyString
                 else String.eqb rest EmptyString in
  if rest_ok && (0 <? k1 + k2)%nat then Ok (decimal_to_float neg n k2)
  else Err ValueError.

End Py.
Import Py.

#[local] Set Warnings "-inexact-float".

(** ** [mpf/system/timing.py] *)
Module Timing.

(** The class attributes [Timing.HZ], [Timing.secs_per_tick] and
    [Timing.tick] ([None], [None] and [0] before [configure]). *)
Record timing := mk_timing {
  HZ : option Z;
  secs_per_tick : option float;
  tick : Z
}.

Definition initial : timing := mk_timing None None 0.

(** [Timing.configure(HZ)]: [Timing.HZ = HZ] first, then
    [Timing.secs_per_tick = 1 / float(HZ)]; nothing is checked. *)
Definition configure (t : timing) (hz : Z) : timing * option exn :=
  let t1 := mk_timing (Some hz) (secs_per_tick t) (tick t) in
  match let* f := py_float_of_Z hz in py_div 1 f with
  | Ok spt => (mk_timing (Some hz) (Some spt) (tick t), None)
  | Err e => (t1, Some e)
  end.

(** [secs_per_tick] read as a float; [None] makes the division a [TypeError]. *)
Definition spt_of (t : timing) : result float :=
  match secs_per_tick t with Some s => Ok s | None => Err TypeError end.

(** [Timing.msecs(ms) = int(ms / Timing.secs_per_tick / 1000)] *)
Definition msecs (t : timing) (ms : float) : result Z :=
  let* spt := spt_of t in
  let* a := py_div ms spt in
  let* b := py_div a 1000 in
  py_int b.

(** [Timing.secs(s) = int(s / Timing.secs_per_tick)] *)
Definition secs (t : timing) (s : float) : result Z :=
  let* spt := spt_of t in
  let* a := py_div s spt in
  py_int a.

(** [Timing.time_to_ticks(time)], for a string argument ([str(time)] is the
    identity).  The suffix test runs on the upper-cased string. *)
Definition time_to_ticks (t : timing) (time : string) : result Z :=
  let time := upper time in
  if endswith time "ms" || endswith time "msec" then
    let* f := py_float_str (drop_alpha time) in msecs t f
  else
    let* f := py_float_str (drop_alpha time) in secs t f.

(** A [Timer] object.  [frequency] holds [frequency / 1000 * Timing.HZ]
    (Python 2 integer division for an integer [frequency] in ms). *)
Record timer := mk_timer {
  callback : nat;
  wakeup : option Z;
  frequency : Z
}.

(** [Timer.__init__(callback, args, frequency)], for an integer (or absent)
    [frequency]: [None / 1000] and [... * None] raise [TypeError]. *)
Definition timer_init (t : timing) (cb : nat) (freq : option Z) : result timer :=
  match freq, HZ t with
  | Some f, Some hz => Ok (mk_timer cb None (Z.div f 1000 * hz))
  | _, _ => Err TypeError
  end.

(** [Timing.add(timer)]: [timer.wakeup = Timing.tick + timer.frequency], then
    [self.timers.add(timer)].  The timer set is a list in iteration order. *)
Definition add (t : timing) (ts : list timer) (tm : timer) : list timer :=
  ts ++ [mk_timer (callback tm) (Some (tick t + frequency tm)) (frequency tm)].

(** Python truthiness of [timer.wakeup] ([None] and [0] are false). *)
Definition wakeup_truthy (w : option Z) : bool :=
  match w with Some n => negb (n =? 0) | None => false end.

(** [timer.wakeup and timer.wakeup <= Timing.tick] *)
Definition due (now : Z) (tm : timer) : bool :=
  match wakeup tm with
  | Some w => wakeup_truthy (Some w) && (w <=? now)
  | None => false
  end.

(** After [timer.call()] returned: advance by [frequency] if it is truthy,
    otherwise clear the wakeup. *)
Definition after_call (tm : timer) : timer :=
  if negb (frequency tm =? 0) then
    mk_timer (callback tm) (option_map (fun w => w + frequency tm) (wakeup tm)) (frequency tm)
  else mk_timer (callback tm) None (frequency tm).

Section TimerTick.
(** The behaviour of the callbacks: [run cb = Some e] when calling [cb]
    raises [e]. *)
Variable run : nat -> option exn.

(** The [for timer in self.timers] loop at tick [now].  The timers are
    mutated in place; an exception leaves the earlier ones updated and the
    raising one (and all later ones) untouched. *)
Fixpoint fire_timers (now : Z) (ts : list timer) : list timer * list nat * option exn :=
  match ts with
  | [] => ([], [], None)
  | tm :: rest =>
      if due now tm then
        match run (callback tm) with
        | Some e => (tm :: rest, [callback tm], Some e)
        | None =>
            let '(rest', calls, err) := fire_timers now rest in
            (after_call tm :: rest', callback tm :: calls, err)
        end
      else
        let '(rest', calls, err) := fire_timers now rest in
        (tm :: rest', calls, err)
  end.

(** [Timing.timer_tick()]: [Timing.tick += 1], then the loop.  Returns the
    new timing, the timer set, the callbacks called (in order) and the
    exception that escaped, if any. *)
Definition timer_tick (t : timing) (ts : list timer)
  : timing * list timer * list nat * option exn :=
  let t' := mk_timing (HZ t) (secs_per_tick t) (tick t + 1) in
  let '(ts', calls, err) := fire_timers (tick t') ts in
  (t', ts', calls, err).

(** [n] successive calls of [timer_tick], one per machine tick, stopping at
    the first exception.  The log pairs each callback called with the tick
    it ran at. *)
Fixpoint run_ticks (t : timing) (ts : list timer) (n : nat)
  : timing * list timer * list (Z * nat) * option exn :=
  match n with
  | O => (t, ts, [], None)
  | S n' =>
      let '(t1, ts1, calls, err) := timer_tick t ts in
      let log := map (fun cb => (tick t1, cb)) calls in
      match err with
      | Some e => (t1, ts1, log, Some e)
      | None =>
          let '(t2, ts2, log2, err2) := run_ticks t1 ts1 n' in
          (t2, ts2, log ++ log2, err2)
      end
  end.

End TimerTick.

End Timing.

(** ** [mpf/system/switch_controller.py] *)
Module SwitchController.
Import Timing.

(** An entry of [machine.switches]: the attributes the controller reads. *)
Record switch_dev := mk_switch_dev {
  sw_type : string;        (** ["NO"] or ["NC"] *)
  sw_tags : list string
}.

(** A value of [self.switches]: [{'state': ..., 'time': ...}]. *)
Record sw_record := mk_sw_record { sw_state : Z; sw_time : Z }.

(** A value of [self.registered_switches[key]]: [{'ticks': ..., 'callback': ...}]. *)
Record entry := mk_entry { e_ticks : Z; e_callback : nat }.

(** A value of [self.active_timed_switches[key]]:
    [{'switch_action': ..., 'callback': ...}]. *)
Record pending := mk_pending { switch_action : string; p_callback : nat }.

Record controller := mk_controller {
  timing_of : timing;                                 (** the [Timing] class *)
  machine_switches : gmap string switch_dev;          (** [machine.switches] *)
  registered_switches : gmap string (list entry);     (** a [defaultdict(list)] *)
  active_timed_switches : list (Z * list pending);    (** a [defaultdict(list)] *)
  switches : gmap string sw_record;
  fired : list (Z * nat);      (** callbacks called, with the tick they ran at *)
  posted : list string;        (** events posted on [machine.events] *)
  (** The behaviour of the callbacks: [raises log = Some e] when the call
      [log] ends with raises [e].  [log] lists every call made so far, so a
      callback may raise on some of its calls only. *)
  raises : list (Z * nat) -> option exn;
  (** The order in which Python 2 iterates [active_timed_switches.items()],
      given the entries in insertion order: it follows the keys' hashes and
      the hash table's layout, not the insertion order. *)
  items_order : list (Z * list pending) -> list (Z * list pending);
  (** The same for the copy [dict(active_timed_switches)] iterated by
      [_tick]. *)
  copy_order : list (Z * list pending) -> list (Z * list pending)
}.

Definition now (c : controller) : Z := tick (timing_of c).

(** [str(name) + '-' + str(state)] *)
Definition switch_key (name : string) (state : Z) : string :=
  String.append name (String.append "-" (pretty state)).

(** *** Record updates *)

Definition set_timing (c : controller) (t : timing) : controller :=
  mk_controller t (machine_switches c) (registered_switches c)
    (active_timed_switches c) (switches c) (fired c) (posted c)
    (raises c) (items_order c) (copy_order c).
Definition set_registered (c : controller) (r : gmap string (list entry)) : controller :=
  mk_controller (timing_of c) (machine_switches c) r
    (active_timed_switches c) (switches c) (fired c) (posted c)
    (raises c) (items_order c) (copy_order c).
Definition set_active (c : controller) (a : list (Z * list pending)) : controller :=
  mk_controller (timing_of c) (machine_switches c) (registered_switches c)
    a (switches c) (fired c) (posted c)
    (raises c) (items_order c) (copy_order c).
Definition set_switches (c : controller) (s : gmap string sw_record) : controller :=
  mk_controller (timing_of c) (machine_switches c) (registered_switches c)
    (active_timed_switches c) s (fired c) (posted c)
    (raises c) (items_order c) (copy_order c).
(** The call of callback [cb] at the current tick, added to the log. *)
Definition log_call (c : controller) (cb : nat) : controller :=
  mk_controller (timing_of c) (machine_switches c) (registered_switches c)
    (active_timed_switches c) (switches c) (fired c ++ [(now c, cb)]) (posted c)
    (raises c) (items_order c) (copy_order c).
(** [cb()]: the call is made, then returns or raises. *)
Definition call (c : controller) (cb : nat) : controller * option exn :=
  let c' := log_call c cb in (c', raises c (fired c')).
Definition post (c : controller) (ev : string) : controller :=
  mk_controller (timing_of c) (machine_switches c) (registered_switches c)
    (active_timed_switches c) (switches c) (fired c) (posted c ++ [ev])
    (raises c) (items_order c) (copy_order c).

(** *** The [active_timed_switches] dictionary *)

(** The dictionary is kept as its entries in insertion order, one per key;
    the order Python iterates it in is [items_order] or [copy_order].
    [active_timed_switches[key].append(value)] (a missing key starts an
    empty list). *)
Fixpoint bucket_append (a : list (Z * list pending)) (key : Z) (v : pending)
  : list (Z * list pending) :=
  match a with
  | [] => [(key, [v])]
  | (k, b) :: rest =>
      if k =? key then (k, b ++ [v]) :: rest else (k, b) :: bucket_append rest key v
  end.

(** [del active_timed_switches[key]]: [KeyError] when [key] is absent. *)
Fixpoint bucket_del (a : list (Z * list pending)) (key : Z)
  : result (list (Z * list pending)) :=
  match a with
  | [] => Err KeyError
  | (k, b) :: rest =>
      if k =? key then Ok rest
      else let* rest' := bucket_del rest key in Ok ((k, b) :: rest')
  end.

(** *** Queries *)

(** [is_state(switch_name, state, ticks)] *)
Definition is_state (c : controller) (name : string) (state ticks : Z) : result bool :=
  match switches c !! name with
  | None => Err KeyError
  | Some r =>
      if sw_state r =? state then
        if ticks <=? now c - sw_time r then Ok true else Ok false
      else Ok false
  end.

(** [ticks_since_change(switch_name) = Timing.tick - switches[name]['time']] *)
Definition ticks_since_change (c : controller) (name : string) : result Z :=
  match switches c !! name with
  | None => Err KeyError
  | Some r => Ok (now c - sw_time r)
  end.

(** [set_state(switch_name, state)] *)
Definition set_state (c : controller) (name : string) (state : Z) : controller :=
  set_switches c (<[name := mk_sw_record state (now c)]> (switches c)).

(** *** [process_switch(name, state, logical)] *)

(** The loop over [registered_switches[switch_key]]: an entry with a
    non-zero tick count is scheduled, one with 0 is called at once; an
    exception of the callback stops the loop and escapes. *)
Fixpoint run_entries (c : controller) (action : string) (es : list entry)
  : controller * option exn :=
  match es with
  | [] => (c, None)
  | e :: rest =>
      if negb (e_ticks e =? 0) then
        run_entries (set_active c (bucket_append (active_timed_switches c) (now c + e_ticks e)
                                     (mk_pending action (e_callback e)))) action rest
      else
        match call c (e_callback e) with
        | (c', None) => run_entries c' action rest
        | (c', Some ex) => (c', Some ex)
        end
  end.

(** [if switch_key in self.registered_switches:] and the loop. *)
Definition run_handlers (c : controller) (key : string) : controller * option exn :=
  match registered_switches c !! key with
  | Some es => run_entries c key es
  | None => (c, None)
  end.

(** The inner loop [for item in v]: every matching item runs
    [del self.active_timed_switches[k]]; a second match in the same bucket
    finds [k] gone.  On an exception the deletions made so far persist. *)
Fixpoint sweep_bucket (a : list (Z * list pending)) (k : Z) (opp : string)
    (v : list pending) : list (Z * list pending) * option exn :=
  match v with
  | [] => (a, None)
  | item :: rest =>
      if String.eqb (switch_action item) opp then
        match bucket_del a k with
        | Ok a' => sweep_bucket a' k opp rest
        | Err e => (a, Some e)
        end
      else sweep_bucket a k opp rest
  end.

(** The outer loop over [self.active_timed_switches.items()] (a list copy in
    Python 2, so deleting while iterating is allowed), in the order
    [items_order] gives. *)
Fixpoint sweep (a : list (Z * list pending)) (opp : string)
    (items : list (Z * list pending)) : list (Z * list pending) * option exn :=
  match items with
  | [] => (a, None)
  | (k, v) :: rest =>
      match sweep_bucket a k opp v with
      | (a', Some e) => (a', Some e)
      | (a', None) => sweep a' opp rest
      end
  end.

(** [_post_switch_events(switch_name, state)] *)
Definition post_switch_events (c : controller) (dev : switch_dev) (state : Z) : controller :=
  if state =? 1 then fold_left (fun c tag => post c (String.append "sw_" tag)) (sw_tags dev) c
  else c.

(** [process_switch(name, state, logical)], switch given by name.  Returns
    the controller after the call and the exception it raised, if any. *)
Definition process_switch (c : controller) (name : string) (state : Z) (logical : bool)
  : controller * option exn :=
  match machine_switches c !! name with
  | None => (c, Some KeyError)
  | Some dev =>
      (* flip the incoming state if the switch type is NC and logical = False *)
      let state := if String.eqb (sw_type dev) "NC" && negb logical
                   then Z.lxor state 1 else state in
      let c := set_state c name state in
      let key := switch_key name state in
      let '(c, err) := run_handlers c key in
      match err with
      | Some e => (c, Some e)
      | None =>
          let '(a, err) := sweep (active_timed_switches c) (switch_key name (Z.lxor state 1))
                             (items_order c (active_timed_switches c)) in
          let c := set_active c a in
          match err with
          | Some e => (c, Some e)
          | None => (post_switch_events c dev state, None)
          end
      end
  end.

(** [add_switch_handler(switch_name, callback, state, ms)]:
    [ticks = int(math.ceil((ms/Timing.secs_per_tick/1000)))], then the entry
    is appended to [registered_switches[str(switch_name) + '-' + str(state)]]. *)
Definition handler_ticks (c : controller) (ms : float) : result Z :=
  let* spt := spt_of (timing_of c) in
  let* a := py_div ms spt in
  let* b := py_div a 1000 in
  py_int_ceil b.

Definition add_switch_handler (c : controller) (name : string) (cb : nat)
    (state : Z) (ms : float) : result controller :=
  let* ticks := handler_ticks c ms in
  let key := switch_key name state in
  let es := default [] (registered_switches c !! key) in
  Ok (set_registered c (<[key := es ++ [mk_entry ticks cb]]> (registered_switches c))).

(** [for item in v: item['callback']()]: an exception stops the loop. *)
Fixpoint call_all (c : controller) (v : list pending) : controller * option exn :=
  match v with
  | [] => (c, None)
  | item :: rest =>
      match call c (p_callback item) with
      | (c', None) => call_all c' rest
      | (c', Some e) => (c', Some e)
      end
  end.

(** [_tick()]: over a copy of [active_timed_switches], every bucket whose key
    is [<= Timing.tick] has its callbacks called and is then deleted.  An
    exception of a callback escapes before the [del]: its bucket stays. *)
Fixpoint tick_loop (c : controller) (items : list (Z * list pending))
  : controller * option exn :=
  match items with
  | [] => (c, None)
  | (k, v) :: rest =>
      if k <=? now c then
        match call_all c v with
        | (c, Some e) => (c, Some e)
        | (c, None) =>
            match bucket_del (active_timed_switches c) k with
            | Ok a => tick_loop (set_active c a) rest
            | Err e => (c, Some e)
            end
        end
      else tick_loop c rest
  end.

(** The copy is iterated in the order [copy_order] gives. *)
Definition tick_hook (c : controller) : controller * option exn :=
  tick_loop c (copy_order c (active_timed_switches c)).

(** One machine tick as seen by the controller: [Timing.tick += 1], then the
    [timer_tick] event runs [_tick]. *)
Definition advance (c : controller) : controller * option exn :=
  let t := timing_of c in
  tick_hook (set_timing c (mk_timing (HZ t) (secs_per_tick t) (tick t + 1))).

(** The public operations, and runs of them that stop at the first
    exception. *)
Inductive op :=
| ProcessSwitch (name : string) (state : Z) (logical : bool)
| AddHandler (name : string) (cb : nat) (state : Z) (ms : float)
| Advance.

Definition step (c : controller) (o : op) : controller * option exn :=
  match o with
  | ProcessSwitch n s l => process_switch c n s l
  | AddHandler n cb s ms =>
      match add_switch_handler c n cb s ms with
      | Ok c' => (c', None)
      | Err e => (c, Some e)
      end
  | Advance => advance c
  end.

Fixpoint run (c : controller) (os : list op) : controller * option exn :=
  match os with
  | [] => (c, None)
  | o :: rest =>
      match step c o with
      | (c', None) => run c' rest
      | (c', Some e) => (c', Some e)
      end
  end.

(** *** Further entry points *)

(** Python 2 compares [None] below every integer, so [None <= n] holds. *)
Definition py2_le_opt (a : option Z) (b : Z) : bool :=
  match a with None => true | Some a => a <=? b end.

(** [is_state(switch_name, state, ticks)] with [ticks] an integer or [None]
    (what [is_active] and [is_inactive] pass by default). *)
Definition is_state_opt (c : controller) (name : string) (state : Z) (ticks : option Z)
  : result bool :=
  match switches c !! name with
  | None => Err KeyError
  | Some r =>
      if sw_state r =? state then
        if py2_le_opt ticks (now c - sw_time r) then Ok true else Ok false
      else Ok false
  end.

(** [is_active(switch_name, ticks=None)] *)
Definition is_active (c : controller) (name : string) (ticks : option Z) : result bool :=
  is_state_opt c name 1 ticks.

(** [is_inactive(switch_name, ticks=None)] *)
Definition is_inactive (c : controller) (name : string) (ticks : option Z) : result bool :=
  is_state_opt c name 0 ticks.

(** [initialize_hw_states()]: [process_switch(switch.name, switch.state)]
    for every switch of [machine.switches], in iteration order, given as
    (name, hardware state) pairs.  An exception stops the loop. *)
Fixpoint initialize_hw_states (c : controller) (hw : list (string * Z))
  : controller * option exn :=
  match hw with
  | [] => (c, None)
  | (name, state) :: rest =>
      match process_switch c name state false with
      | (c', None) => initialize_hw_states c' rest
      | (c', Some e) => (c', Some e)
      end
  end.

(** The name lookup at the top of [process_switch(name, state, logical, num,
    obj)].  [sws] lists [machine.switches] in iteration order as
    (name, number) pairs.  With [num] given, every switch whose [number]
    equals [num] overwrites [name]; otherwise a given [obj] supplies
    [obj.name]. *)
Definition resolve_name (sws : list (string * Z)) (name : option string) (num : option Z)
    (obj : option string) : option string :=
  match num with
  | Some k => fold_left (fun name '(n, number) => if number =? k then Some n else name) sws name
  | None => match obj with Some o => Some o | None => name end
  end.

End SwitchController.

(** ** [mpf/devices/accelerometer.py] *)
Module Accelerometer.

Definition vec : Type := float * float * float.

(** [self.config]: the keys the device reads, plus the [alpha] smoothing
    coefficient a configuration may carry (the code never reads it).  The
    two limit dictionaries are lists in iteration order. *)
Record config := mk_config {
  level_x : float;
  level_y : float;
  level_z : float;
  level_limits : list (float * string);
  hit_limits : list (float * string);
  alpha_cfg : option float
}.

(** [self.value] and [self.history] ([False] before the first sample). *)
Record accel := mk_accel { value : option vec; history : option vec }.

Definition initial : accel := mk_accel None None.

(** An event posted on [machine.events]: a hit event has no payload, a level
    event carries [deviation_total], [deviation_x] and [deviation_y]. *)
Inductive event :=
| Hit (name : string)
| Level (name : string) (deviation_total deviation_x deviation_y : float).

Definition math_pi : float := 3.141592653589793.

(** [alpha = 0.95] *)
Definition alpha : float := 0.95.

(** [math.sqrt]: [ValueError] on a negative argument. *)
Definition py_sqrt (f : float) : result float :=
  if (f <? 0)%float then Err ValueError else Ok (sqrt f).

Section WithLibm.
(** The C library's [acos], which [math.acos] calls on arguments in [-1, 1]. *)
Variable libm_acos : float -> float.

(** [math.acos]: NaN gives NaN; outside [-1, 1] (infinities included) it
    raises [ValueError]. *)
Definition py_acos (f : float) : result float :=
  if is_nan f then Ok f
  else if (f <? -1)%float || (1 <? f)%float then Err ValueError
  else Ok (libm_acos f).

(** [_calculate_vector_length(x, y, z) = math.sqrt(x*x + y*y + z*z)] *)
Definition calculate_vector_length (x y z : float) : result float :=
  py_sqrt (x * x + y * y + z * z)%float.

(** [_calculate_angle]: [math.acos(dot / (len1 * len2))]. *)
Definition calculate_angle (x1 y1 z1 x2 y2 z2 : float) : result float :=
  let dot := (x1 * x2 + y1 * y2 + z1 * z2)%float in
  let* l1 := calculate_vector_length x1 y1 z1 in
  let* l2 := calculate_vector_length x2 y2 z2 in
  let* r := py_div dot (l1 * l2)%float in
  py_acos r.

(** [_handle_hits(dx, dy, dz)] *)
Definition handle_hits (cfg : config) (dx dy dz : float) : result (list event) :=
  let* acceleration := calculate_vector_length dx dy dz in
  Ok (flat_map (fun '(min_acceleration, ev) =>
                  if (min_acceleration <? acceleration)%float then [Hit ev] else [])
               (hit_limits cfg)).

(** [_handle_level(x, y, z)] *)
Definition handle_level (cfg : config) (x y z : float) : result (list event) :=
  let* deviation_total :=
    calculate_angle (level_x cfg) (level_y cfg) (level_z cfg) x y z in
  let* deviation_x := calculate_angle 0 (level_y cfg) (level_z cfg) 0 y z in
  let* deviation_y := calculate_angle (level_x cfg) 0 (level_z cfg) x 0 z in
  Ok (flat_map (fun '(max_deviation, ev) =>
                  if (max_deviation <? deviation_total / math_pi * 180)%float
                  then [Level ev deviation_total deviation_x deviation_y] else [])
               (level_limits cfg)).

(** The filter step of [update_acceleration]: the new [history] and the
    deltas handed to [_handle_hits]. *)
Definition filter_step (h : option vec) (x y z : float) : vec * vec :=
  match h with
  | None => ((x, y, z), (0%float, 0%float, 0%float))
  | Some (h0, h1, h2) =>
      (((h0 * alpha + x * (1 - alpha))%float,
        (h1 * alpha + y * (1 - alpha))%float,
        (h2 * alpha + z * (1 - alpha))%float),
       ((x - h0)%float, (y - h1)%float, (z - h2)%float))
  end.

(** [update_acceleration(x, y, z)]: the device after the call, the events
    posted, and the exception that escaped, if any. *)
Definition update_acceleration (cfg : config) (st : accel) (x y z : float)
  : accel * list event * option exn :=
  let '(h', (dx, dy, dz)) := filter_step (history st) x y z in
  let st' := mk_accel (Some (x, y, z)) (Some h') in
  match handle_hits cfg dx dy dz with
  | Err e => (st', [], Some e)
  | Ok hits =>
      match handle_level cfg x y z with
      | Err e => (st', hits, Some e)
      | Ok levels => (st', hits ++ levels, None)
      end
  end.

End WithLibm.

(** Spec reading of the filter (spec section 4.3): [alpha] taken from the
    configuration, 0.95 when it supplies none. *)
Definition spec_alpha (cfg : config) : float :=
  match alpha_cfg cfg with Some a => a | None => 0.95%float end.

Definition spec_filtered (cfg : config) (h : vec) (x y z : float) : vec :=
  let a := spec_alpha cfg in
  let '(h0, h1, h2) := h in
  ((a * h0 + (1 - a) * x)%float, (a * h1 + (1 - a) * y)%float,
   (a * h2 + (1 - a) * z)%float).

End Accelerometer.

(** ** [mpf/platforms/base_serial_communicator.py] *)
Module BaseSerialCommunicator.

(** The exceptions the communicator raises or lets through. *)
Inductive serial_exn :=
| IncompleteReadError     (** [reader.readexactly] at end of stream *)
| NotImplementedError
| AttributeError          (** a method called on [None] *)
| CancelledError
| Raised (id : nat).      (** an exception of a subclass's [_parse_msg] *)

#[export] Instance byte_eq_decision : EqDecision Byte.byte := Byte.byte_eq_dec.

(** The loop of [readuntil(separator, min_chars)]: [stream] holds the bytes
    the reader will still deliver before end of stream.  Returns the
    buffer and the bytes left in the reader, or the exception. *)
Fixpoint readuntil_loop (separator : list Byte.byte) (min_chars : Z)
    (buffer stream : list Byte.byte) : (list Byte.byte * list Byte.byte) + serial_exn :=
  match stream with
  | [] => inr IncompleteReadError
  | char :: rest =>
      let buffer := buffer ++ [char] in
      if bool_decide ([char] = separator) && (min_chars <? Z.of_nat (length buffer))
      then inl (buffer, rest)
      else readuntil_loop separator min_chars buffer rest
  end.

(** The test [readuntil] applies to its buffer after each byte read: the
    byte equals the separator and the buffer is longer than [min_chars]. *)
Definition sep_ends (separator : list Byte.byte) (min_chars : Z) (buf : list Byte.byte) : Prop :=
  exists pre char, buf = pre ++ [char] /\ [char] = separator /\
    min_chars < Z.of_nat (length buf).

(** [readuntil(separator, min_chars=0)] *)
Definition readuntil (separator : list Byte.byte) (min_chars : Z) (stream : list Byte.byte)
  : (list Byte.byte * list Byte.byte) + serial_exn :=
  readuntil_loop separator min_chars [] stream.

(** What one [yield from self.reader.read(100)] gives: data (empty at end of
    stream), another exception, or a cancellation of the task. *)
Inductive read_outcome :=
| Data (resp : list Byte.byte)
| ReadFailed
| Cancelled.

(** The actions of [_socket_reader] on the platform (logging left out). *)
Inductive reader_action :=
| ParseMsg (resp : list Byte.byte)   (** [self._parse_msg(resp)] *)
| MachineStop.                       (** [self.machine.stop()] *)

(** How the reader task stands after the reads given. *)
Inductive task_status :=
| Waiting                 (** still awaiting the next read *)
| Returned
| Failed (e : serial_exn).

Section SocketReader.
(** [_parse_msg(resp)]: [Some e] when it raises [e]. *)
Variable parse_msg : list Byte.byte -> option serial_exn.

(** [_socket_reader()] fed with the outcomes of successive reads. *)
Fixpoint socket_reader (reads : list read_outcome) : list reader_action * task_status :=
  match reads with
  | [] => ([], Waiting)
  | Cancelled :: _ => ([], Failed CancelledError)
  | ReadFailed :: _ => ([MachineStop], Returned)
  | Data [] :: _ => ([MachineStop], Returned)
  | Data resp :: rest =>
      match parse_msg resp with
      | Some e => ([ParseMsg resp], Failed e)
      | None =>
          let '(acts, st) := socket_reader rest in
          (ParseMsg resp :: acts, st)
      end
  end.

End SocketReader.

(** The messages handed to [_parse_msg], in order. *)
Definition parsed (acts : list reader_action) : list (list Byte.byte) :=
  flat_map (fun a => match a with ParseMsg r => [r] | MachineStop => [] end) acts.

(** The attributes [connect] and [stop] use.  [writer] and [read_task] are
    [None] until [_connect_to_hardware] sets them. *)
Record comm := mk_comm {
  writer_open : option bool;          (** [self.writer]: [Some open?] *)
  write_limits : option (Z * Z);      (** [set_write_buffer_limits(high, low)] *)
  input_reset : bool;                 (** [serial.reset_input_buffer()] done *)
  reader_buffer : option (list Byte.byte);  (** [self.reader._buffer] *)
  read_task : option bool             (** [self.read_task]: [Some cancelled?] *)
}.

(** After [__init__]. *)
Definition init_comm : comm := mk_comm None None false None None.

(** [connect()] = [_connect_to_hardware(port, baud)]: the connection is
    opened with [pending] bytes in the reader's buffer, the write limits
    set to (2048, 1024), the input buffer reset, the reader's buffer
    cleared, then [_identify_connection()] runs ([Some e] when it raises);
    only after it the read task is created. *)
Definition connect (identify : option serial_exn) (pending : list Byte.byte) (s : comm)
  : comm * option serial_exn :=
  let s := mk_comm (Some true) (write_limits s) (input_reset s) (Some pending) (read_task s) in
  let s := mk_comm (writer_open s) (Some (2048, 1024)) (input_reset s) (reader_buffer s)
             (read_task s) in
  let s := mk_comm (writer_open s) (write_limits s) true (reader_buffer s) (read_task s) in
  let s := mk_comm (writer_open s) (write_limits s) (input_reset s) (Some []) (read_task s) in
  match identify with
  | Some e => (s, Some e)
  | None => (mk_comm (writer_open s) (write_limits s) (input_reset s) (reader_buffer s)
               (Some false), None)
  end.

(** The base class's [_identify_connection]. *)
Definition base_identify : option serial_exn := Some NotImplementedError.

(** [stop()]: [self.read_task.cancel()], then [self.writer.close()]. *)
Definition stop (s : comm) : comm * option serial_exn :=
  match read_task s with
  | None => (s, Some AttributeError)
  | Some _ =>
      let s := mk_comm (writer_open s) (write_limits s) (input_reset s) (reader_buffer s)
                 (Some true) in
      match writer_open s with
      | None => (s, Some AttributeError)
      | Some _ => (mk_comm (Some false) (write_limits s) (input_reset s) (reader_buffer s)
                     (read_task s), None)
      end
  end.

(** [" 0x%02x" % b]: lower-case hexadecimal, two digits. *)
Definition hex_digit (n : nat) : ascii :=
  ascii_of_nat (if (n <? 10)%nat then 48 + n else 87 + n).

Definition hex_byte (b : Byte.byte) : string :=
  let n := Byte.to_nat b in
  String.append " 0x" (String (hex_digit (n / 16)) (String (hex_digit (n mod 16)) EmptyString)).

(** [''.join(" 0x%02x" % b for b in msg)], the debug rendering in [send]
    and [_socket_reader]. *)
Definition hex_dump (msg : list Byte.byte) : string :=
  fold_right (fun b acc => String.append (hex_byte b) acc) EmptyString msg.

End BaseSerialCommunicator.

(** ** Invariants and concrete configurations *)
Module Props.
Import Timing SwitchController.

(** Every key of [active_timed_switches] lies in the future, and the
    association list has one entry per key (it stands for a dict). *)
Definition keys_after (n : Z) (a : list (Z * list pending)) : Prop :=
  (forall k, In k (map fst a) -> n < k) /\ List.NoDup (map fst a).

Definition timed_keys_future (c : controller) : Prop :=
  keys_after (now c) (active_timed_switches c).

(** Every registered handler waits a non-negative number of ticks. *)
Definition registrations_nonneg (c : controller) : Prop :=
  forall key es e, registered_switches c !! key = Some es -> In e es -> 0 <= e_ticks e.

(** A registration whose [ms] converts to a non-negative tick count. *)
Definition op_nonneg (c : controller) (o : op) : Prop :=
  match o with
  | AddHandler _ _ _ ms => forall t, handler_ticks c ms = Ok t -> 0 <= t
  | _ => True
  end.

(** Keys a cancellation sweep leaves are keys it was given, still distinct. *)
Definition keys_shrink (a a' : list (Z * list pending)) : Prop :=
  List.NoDup (map fst a') /\ (forall x, In x (map fst a') -> In x (map fst a)).

(** Python iterates a dict over each of its entries exactly once. *)
Definition orders_ok (c : controller) : Prop :=
  forall a, Permutation (items_order c a) a /\ Permutation (copy_order c a) a.

(** The callbacks of the fires due at the next tick return normally when
    that tick calls them. *)
Definition pending_calls_return (c : controller) : Prop :=
  forall log k v p, In (k, v) (active_timed_switches c) -> k <= now c + 1 -> In p v ->
    raises c (log ++ [(now c + 1, p_callback p)]) = None.

Definition op_calls_return (c : controller) (o : op) : Prop :=
  match o with
  | Advance => pending_calls_return c
  | _ => True
  end.

(** [c'] differs from [c] at most in the pending fires and the call log. *)
Definition same_frame (c c' : controller) : Prop :=
  timing_of c' = timing_of c /\ machine_switches c' = machine_switches c /\
  registered_switches c' = registered_switches c /\ switches c' = switches c /\
  posted c' = posted c /\ raises c' = raises c /\ items_order c' = items_order c /\
  copy_order c' = copy_order c.

(** Callbacks where number [n] raises on every call and the others return. *)
Definition callback_raises (n : nat) (log : list (Z * nat)) : option exn :=
  match rev log with
  | (_, cb) :: _ => if Nat.eqb cb n then Some (CallbackRaised n) else None
  | [] => None
  end.

(** A binary64 value that is not below zero: [+0], a positive finite
    number, [+inf], or NaN. *)
Definition sf_nonneg (f : spec_float) : bool :=
  match f with
  | S754_zero false | S754_infinity false | S754_finite false _ _ | S754_nan => true
  | _ => false
  end.

(** An accelerometer whose level reference is [(0, 0, 1)], no limits. *)
Definition cfg_z : Accelerometer.config := Accelerometer.mk_config 0 0 1 [] [] None.

(** The same with reference [(1, 1, 1)]. *)
Definition cfg_111 : Accelerometer.config := Accelerometer.mk_config 1 1 1 [] [] None.

(** The timing service after [configure(HZ=50)], at tick 0. *)
Definition t50 : timing := fst (configure Timing.initial 50).

(** A machine with two normally-open switches [A] (tagged [left]) and [B]
    and a normally-closed switch [N]. *)
Definition machine3 : gmap string switch_dev :=
  <["A" := mk_switch_dev "NO" ["left"]]>
    (<["B" := mk_switch_dev "NO" []]> (<["N" := mk_switch_dev "NC" []]> ∅)).

(** The controller of [machine3] at tick 0: no handlers, nothing pending,
    callbacks that return normally, and dictionaries iterated in insertion
    order. *)
Definition c0 : controller :=
  mk_controller t50 machine3 ∅ [] ∅ [] [] (fun _ => None) (fun a => a) (fun a => a).

(** Five calls to [advance]. *)
Definition five_ticks : list op := [Advance; Advance; Advance; Advance; Advance].

End Props.

(** * Properties *)
Module Claims.
Import Timing SwitchController Accelerometer Props.

(** ** The switch controller *)

(** C1 (delayed handler fires once, on tick t+d): refuted by the
    whole-bucket cancellation.  Handlers on (A, active) and (B, active), both
    with 100 ms = 5 ticks at 50 Hz.  At tick 0, A goes active, and B goes
    active and back.  B's cancellation deletes the bucket at tick 5, which
    also holds A's pending fire: A then stays active for 5 ticks without
    further reports and its callback is never called. *)
Lemma C1_other_switch_cancels_pending_fire :
  let r := run c0 ([AddHandler "A" 1 1 100; AddHandler "B" 2 1 100;
                    ProcessSwitch "A" 1 false; ProcessSwitch "B" 1 false;
                    ProcessSwitch "B" 0 false] ++ five_ticks) in
  snd r = None /\ now (fst r) = 5 /\ is_state (fst r) "A" 1 5 = Ok true /\
  fired (fst r) = [].
Proof. vm_compute. repeat split. Qed.

(** C2 (every bucket holding an opposite-state pending fire is removed):
    refuted when a bucket holds two such fires.  Two handlers on (A, active)
    with 5 ticks; A reported active at ticks 0 and 1 gives buckets 5 and 6,
    each with two ["A-1"] fires.  Reporting A inactive deletes the first
    bucket visited, then the second match in it runs [del] again and raises
    [KeyError]: the other bucket is left in place, whichever of the two
    orders the dict iterates in. *)
Lemma C2_second_match_raises_keyerror :
  let r1 := run c0 [AddHandler "A" 1 1 100; AddHandler "A" 2 1 100;
                    ProcessSwitch "A" 1 false; Advance; ProcessSwitch "A" 1 false] in
  let b := [mk_pending "A-1" 1; mk_pending "A-1" 2] in
  snd r1 = None /\ now (fst r1) = 1 /\
  active_timed_switches (fst r1) = [(5, b); (6, b)] /\
  process_switch (fst r1) "A" 0 false
    = (set_active (set_state (fst r1) "A" 0) [(6, b)], Some KeyError) /\
  process_switch (set_active (fst r1) [(6, b); (5, b)]) "A" 0 false
    = (set_active (set_state (fst r1) "A" 0) [(5, b)], Some KeyError).
Proof. vm_compute. repeat split. Qed.

(** C3 counterexample: for the normally-closed switch [N],
    [process_switch("N", 1)] stores state 0, so [is_state("N", 1)] is false. *)
Lemma C3_nc_switch_stores_inverted_state :
  let c := fst (process_switch c0 "N" 1 false) in
  is_state c "N" 1 0 = Ok false /\ is_state c "N" 0 0 = Ok true.
Proof. vm_compute. split; reflexivity. Qed.

(** *** What a call leaves alone *)

Lemma same_frame_refl (c : controller) : same_frame c c.
Proof. repeat split. Qed.

Lemma same_frame_trans (c1 c2 c3 : controller) :
  same_frame c1 c2 -> same_frame c2 c3 -> same_frame c1 c3.
Proof.
  intros (A1 & A2 & A3 & A4 & A5 & A6 & A7 & A8) (B1 & B2 & B3 & B4 & B5 & B6 & B7 & B8).
  repeat split; congruence.
Qed.

Lemma same_frame_now (c c' : controller) : same_frame c c' -> now c' = now c.
Proof. intros [H _]. unfold now. rewrite H. reflexivity. Qed.

Lemma log_call_frame (c : controller) (cb : nat) : same_frame c (log_call c cb).
Proof. repeat split. Qed.

Lemma set_active_frame (c : controller) (a : list (Z * list pending)) :
  same_frame c (set_active c a).
Proof. repeat split. Qed.

Lemma call_all_frame (c : controller) (v : list pending) :
  same_frame c (fst (call_all c v)) /\
  active_timed_switches (fst (call_all c v)) = active_timed_switches c.
Proof.
  revert c. induction v as [|p v IH]; intros c; cbn [call_all];
    [split; [apply same_frame_refl|reflexivity]|].
  unfold call. destruct (raises c (fired (log_call c (p_callback p)))); cbn [fst];
    [split; [apply log_call_frame|reflexivity]|].
  destruct (IH (log_call c (p_callback p))) as [H1 H2].
  split; [exact (same_frame_trans _ _ _ (log_call_frame _ _) H1)|exact H2].
Qed.

(** The bucket's callbacks all return: the loop does not raise. *)
Lemma call_all_return (c : controller) (v : list pending) :
  (forall log p, In p v -> raises c (log ++ [(now c, p_callback p)]) = None) ->
  snd (call_all c v) = None.
Proof.
  revert c. induction v as [|p v IH]; intros c H; cbn [call_all]; [reflexivity|].
  unfold call. change (fired (log_call c (p_callback p))) with (fired c ++ [(now c, p_callback p)]).
  rewrite (H (fired c) p (or_introl eq_refl)). cbn [fst].
  apply IH. intros log p' Hp'. exact (H log p' (or_intror Hp')).
Qed.

Lemma run_entries_frame (c : controller) (action : string) (es : list entry) :
  same_frame c (fst (run_entries c action es)).
Proof.
  revert c. induction es as [|e es IH]; intros c; cbn [run_entries]; [apply same_frame_refl|].
  destruct (negb (e_ticks e =? 0)).
  - exact (same_frame_trans _ _ _ (set_active_frame _ _) (IH _)).
  - unfold call. destruct (raises c (fired (log_call c (e_callback e)))); cbn [fst];
      [apply log_call_frame|exact (same_frame_trans _ _ _ (log_call_frame _ _) (IH _))].
Qed.

Lemma run_handlers_frame (c : controller) (key : string) :
  same_frame c (fst (run_handlers c key)).
Proof.
  unfold run_handlers. destruct (registered_switches c !! key);
    [apply run_entries_frame|apply same_frame_refl].
Qed.

Lemma post_switch_events_keeps (c : controller) (dev : switch_dev) (state : Z) :
  switches (post_switch_events c dev state) = switches c /\
  timing_of (post_switch_events c dev state) = timing_of c.
Proof.
  unfold post_switch_events. destruct (state =? 1); [|split; reflexivity].
  generalize c. induction (sw_tags dev) as [|tag tags IH]; intros c'; simpl;
    [split; reflexivity|].
  rewrite (proj1 (IH _)), (proj2 (IH _)). split; reflexivity.
Qed.

(** [process_switch] on a known switch, once the handlers have run. *)
Lemma process_switch_split (c : controller) (name : string) (dev : switch_dev)
    (s : Z) (l : bool) (c2 : controller) (err : option exn) :
  machine_switches c !! name = Some dev ->
  let s' := if String.eqb (sw_type dev) "NC" && negb l then Z.lxor s 1 else s in
  run_handlers (set_state c name s') (switch_key name s') = (c2, err) ->
  process_switch c name s l =
  match err with
  | Some e => (c2, Some e)
  | None =>
      let '(a, err) := sweep (active_timed_switches c2) (switch_key name (Z.lxor s' 1))
                         (items_order c2 (active_timed_switches c2)) in
      match err with
      | Some e => (set_active c2 a, Some e)
      | None => (post_switch_events (set_active c2 a) dev s', None)
      end
  end.
Proof.
  intros Hdev s' Hr. subst s'. unfold process_switch. rewrite Hdev. cbv zeta.
  rewrite Hr. reflexivity.
Qed.

(** The state [process_switch] stores: the incoming one, inverted for an NC
    switch reported raw ([logical = false]). *)
Lemma process_switch_stores (c : controller) (name : string) (dev : switch_dev)
    (s : Z) (logical : bool) :
  machine_switches c !! name = Some dev ->
  switches (fst (process_switch c name s logical))
  = <[name := mk_sw_record
                (if String.eqb (sw_type dev) "NC" && negb logical then Z.lxor s 1 else s)
                (now c)]> (switches c) /\
  timing_of (fst (process_switch c name s logical)) = timing_of c.
Proof.
  intros Hdev.
  set (s' := if String.eqb (sw_type dev) "NC" && negb logical then Z.lxor s 1 else s).
  destruct (run_handlers (set_state c name s') (switch_key name s')) as [c2 err] eqn:Hr.
  pose proof (run_handlers_frame (set_state c name s') (switch_key name s')) as Hf.
  rewrite Hr in Hf. destruct Hf as (T & _ & _ & S & _). cbn [fst] in T, S.
  rewrite (process_switch_split c name dev s logical c2 err Hdev Hr).
  destruct err as [e|]; [cbn [fst]; rewrite S, T; split; reflexivity|].
  destruct (sweep _ _ _) as [a [e|]]; cbn [fst].
  - cbn [switches timing_of set_active]. rewrite S, T. split; reflexivity.
  - rewrite (proj1 (post_switch_events_keeps _ _ _)),
            (proj2 (post_switch_events_keeps _ _ _)).
    cbn [switches timing_of set_active]. rewrite S, T. split; reflexivity.
Qed.

(** C3, as the code does it: right after [process_switch(name, s, logical)]
    for a known switch, on the same tick, [is_state(name, s')] holds and
    [ticks_since_change(name)] is 0, where [s'] is [s ^ 1] for an NC switch
    reported raw ([logical = false]) and [s] otherwise. *)
Theorem C3_process_switch_then_is_state :
  forall (c : controller) (name : string) (dev : switch_dev) (s : Z) (logical : bool),
    machine_switches c !! name = Some dev ->
    let s' := if String.eqb (sw_type dev) "NC" && negb logical then Z.lxor s 1 else s in
    let c' := fst (process_switch c name s logical) in
    is_state c' name s' 0 = Ok true /\ ticks_since_change c' name = Ok 0.
Proof.
  intros c name dev s logical Hdev s' c'.
  destruct (process_switch_stores c name dev s logical Hdev) as [Hsw Ht].
  unfold is_state, ticks_since_change, now. subst c'.
  rewrite Hsw, Ht, lookup_insert_eq. simpl. unfold now.
  rewrite Z.eqb_refl, Z.sub_diag. split; reflexivity.
Qed.

Lemma C3_witness :
  machine_switches c0 !! "N" = Some (mk_switch_dev "NC" []) /\
  (let s' := if String.eqb (sw_type (mk_switch_dev "NC" [])) "NC" && negb false
             then Z.lxor 1 1 else 1 in
   let c' := fst (process_switch c0 "N" 1 false) in
   is_state c' "N" s' 0 = Ok true /\ ticks_since_change c' "N" = Ok 0).
Proof.
  split; [vm_compute; reflexivity|].
  apply (C3_process_switch_then_is_state c0 "N" (mk_switch_dev "NC" []) 1 false).
  vm_compute. reflexivity.
Defined.

(** C9 counterexamples.  A handler registered with [ms = -100] gets
    [ticks = -5]; [process_switch] at tick 0 then leaves key -5 in
    [active_timed_switches] after the call completes.  And when the
    callback of a pending fire raises, [_tick] stops before its [del]: with
    callback 1 raising, a 5-tick handler on [A] fires at tick 5, the
    exception escapes and key 5 stays in place at tick 5. *)
Lemma C9_keys_left_at_or_before_tick :
  (let r := run c0 [AddHandler "A" 1 1 (-100); ProcessSwitch "A" 1 false] in
   snd r = None /\ now (fst r) = 0 /\
   active_timed_switches (fst r) = [(-5, [mk_pending "A-1" 1])]) /\
  (let c := mk_controller t50 machine3 ∅ [] ∅ [] [] (callback_raises 1)
              (fun a => a) (fun a => a) in
   let r := run c ([AddHandler "A" 1 1 100; ProcessSwitch "A" 1 false] ++ five_ticks) in
   snd r = Some (CallbackRaised 1) /\ now (fst r) = 5 /\ fired (fst r) = [(5, 1%nat)] /\
   active_timed_switches (fst r) = [(5, [mk_pending "A-1" 1])]).
Proof. vm_compute. repeat split. Qed.

(** *** Keys of the [active_timed_switches] association list *)

Lemma keys_bucket_append (a : list (Z * list pending)) (key k : Z) (v : pending) :
  In k (map fst (bucket_append a key v)) <-> In k (map fst a) \/ k = key.
Proof.
  induction a as [|[k0 b] rest IH]; simpl.
  - split; [intros [->|[]]; right; reflexivity|intros [[]| ->]; left; reflexivity].
  - destruct (k0 =? key) eqn:E; simpl.
    + apply Z.eqb_eq in E. subst. split; [tauto|]. intros [H| ->]; [exact H|left; reflexivity].
    + rewrite IH. tauto.
Qed.

Lemma nodup_bucket_append (a : list (Z * list pending)) (key : Z) (v : pending) :
  List.NoDup (map fst a) -> List.NoDup (map fst (bucket_append a key v)).
Proof.
  induction a as [|[k0 b] rest IH]; simpl; intros Hnd.
  - constructor; [intros []|constructor].
  - inversion Hnd as [|? ? Hnin Hnd']; subst.
    destruct (k0 =? key) eqn:E; simpl.
    + constructor; assumption.
    + constructor; [|exact (IH Hnd')].
      rewrite keys_bucket_append. intros [H|H]; [exact (Hnin H)|].
      apply Z.eqb_neq in E. exact (E H).
Qed.

Lemma bucket_del_ok (a a' : list (Z * list pending)) (k : Z) :
  bucket_del a k = Ok a' -> List.NoDup (map fst a) ->
  List.NoDup (map fst a') /\
  (forall x, In x (map fst a') <-> In x (map fst a) /\ x <> k).
Proof.
  revert a'. induction a as [|[k0 b] rest IH]; intros a' Hd Hnd; simpl in Hd;
    [discriminate|].
  inversion Hnd as [|? ? Hnin Hnd']; subst.
  destruct (k0 =? k) eqn:E.
  - apply Z.eqb_eq in E. subst. injection Hd as <-. split; [exact Hnd'|].
    intros x. simpl. split; [intros H; split; [right; exact H|intros ->; exact (Hnin H)]|].
    intros [[->|H] Hne]; [congruence|exact H].
  - destruct (bucket_del rest k) as [rest'|e] eqn:Hr; simpl in Hd; [|discriminate].
    injection Hd as <-. destruct (IH rest' eq_refl Hnd') as [Hnd2 Hiff].
    apply Z.eqb_neq in E. simpl. split.
    + constructor; [rewrite Hiff; tauto|exact Hnd2].
    + intros x. rewrite Hiff. split; [intros [->|[H Hne]]; [split; [left|]; congruence|tauto]|].
      intros [[->|H] Hne]; [left; reflexivity|right; tauto].
Qed.

Lemma bucket_del_present (a : list (Z * list pending)) (k : Z) :
  In k (map fst a) -> exists a', bucket_del a k = Ok a'.
Proof.
  induction a as [|[k0 b] rest IH]; simpl; [intros []|intros H].
  destruct (k0 =? k) eqn:E; [eexists; reflexivity|].
  apply Z.eqb_neq in E. destruct H as [H|H]; [congruence|].
  destruct (IH H) as [a' ->]. eexists. reflexivity.
Qed.

Lemma sweep_bucket_shrinks (a : list (Z * list pending)) (k : Z) (opp : string)
    (v : list pending) :
  List.NoDup (map fst a) -> keys_shrink a (fst (sweep_bucket a k opp v)).
Proof.
  revert a. induction v as [|item rest IH]; intros a Hnd; simpl.
  - split; [exact Hnd|tauto].
  - destruct (String.eqb (switch_action item) opp).
    + destruct (bucket_del a k) as [a'|e] eqn:Hd; [|split; [exact Hnd|tauto]].
      destruct (bucket_del_ok a a' k Hd Hnd) as [Hnd' Hiff].
      destruct (IH a' Hnd') as [H1 H2]. split; [exact H1|].
      intros x Hx. apply (proj1 (Hiff x) (H2 x Hx)).
    + exact (IH a Hnd).
Qed.

Lemma sweep_shrinks (a : list (Z * list pending)) (opp : string)
    (items : list (Z * list pending)) :
  List.NoDup (map fst a) -> keys_shrink a (fst (sweep a opp items)).
Proof.
  revert a. induction items as [|[k v] rest IH]; intros a Hnd; simpl.
  - split; [exact Hnd|tauto].
  - pose proof (sweep_bucket_shrinks a k opp v Hnd) as [H1 H2].
    destruct (sweep_bucket a k opp v) as [a' [e|]]; simpl in *.
    + split; assumption.
    + destruct (IH a' H1) as [H3 H4]. split; [exact H3|]. auto.
Qed.

(** *** The invariant through the public operations *)

Lemma post_switch_events_fields (c : controller) (dev : switch_dev) (state : Z) :
  active_timed_switches (post_switch_events c dev state) = active_timed_switches c /\
  timing_of (post_switch_events c dev state) = timing_of c /\
  registered_switches (post_switch_events c dev state) = registered_switches c.
Proof.
  unfold post_switch_events. destruct (state =? 1); [|repeat split].
  generalize c. induction (sw_tags dev) as [|tag tags IH]; intros c'; simpl;
    [repeat split|].
  destruct (IH (post c' (String.append "sw_" tag))) as (H1 & H2 & H3).
  rewrite H1, H2, H3. repeat split.
Qed.

Lemma run_entries_future (c : controller) (action : string) (es : list entry) :
  (forall e, In e es -> 0 <= e_ticks e) ->
  keys_after (now c) (active_timed_switches c) ->
  keys_after (now c) (active_timed_switches (fst (run_entries c action es))).
Proof.
  revert c. induction es as [|e es IH]; intros c Hes Hk; cbn [run_entries]; [exact Hk|].
  destruct (negb (e_ticks e =? 0)) eqn:E.
  - match goal with |- context [run_entries ?c1 action es] =>
      pose proof (IH c1 (fun e' H => Hes e' (or_intror H))) as Hc1 end.
    apply Hc1. destruct Hk as [Hf Hnd]. split.
    + intros k Hin. apply keys_bucket_append in Hin as [Hin| ->]; [exact (Hf k Hin)|].
      assert (0 <= e_ticks e) by (apply Hes; left; reflexivity).
      apply negb_true_iff, Z.eqb_neq in E. unfold now. simpl. fold (now c). lia.
    + apply nodup_bucket_append. exact Hnd.
  - unfold call. destruct (raises c (fired (log_call c (e_callback e)))); cbn [fst];
      [exact Hk|].
    exact (IH (log_call c (e_callback e)) (fun e' H => Hes e' (or_intror H)) Hk).
Qed.

Lemma process_tail (c c2 : controller) (dev : switch_dev) (name : string) (s' : Z) :
  keys_after (now c) (active_timed_switches c2) -> timing_of c2 = timing_of c ->
  registered_switches c2 = registered_switches c ->
  let c' := fst (let '(a, err) := sweep (active_timed_switches c2)
                                    (switch_key name (Z.lxor s' 1))
                                    (items_order c2 (active_timed_switches c2)) in
                 match err with
                 | Some e => (set_active c2 a, Some e)
                 | None => (post_switch_events (set_active c2 a) dev s', None)
                 end) in
  timed_keys_future c' /\ registered_switches c' = registered_switches c /\
  timing_of c' = timing_of c.
Proof.
  intros Hk2 Ht2 Hr2.
  pose proof (sweep_shrinks (active_timed_switches c2) (switch_key name (Z.lxor s' 1))
                (items_order c2 (active_timed_switches c2)) (proj2 Hk2)) as [Hnd Hsub].
  destruct (sweep _ _ _) as [a [e|]]; simpl in *.
  - unfold timed_keys_future, now. simpl. rewrite Ht2, Hr2.
    split; [|split; reflexivity]. split; [|exact Hnd].
    intros k Hin. exact (proj1 Hk2 k (Hsub k Hin)).
  - destruct (post_switch_events_fields (set_active c2 a) dev s') as (H1 & H2 & H3).
    unfold timed_keys_future, now. rewrite H1, H2, H3. simpl. rewrite Ht2, Hr2.
    split; [|split; reflexivity]. split; [|exact Hnd].
    intros k Hin. exact (proj1 Hk2 k (Hsub k Hin)).
Qed.

Lemma process_switch_future (c : controller) (name : string) (s : Z) (logical : bool) :
  timed_keys_future c -> registrations_nonneg c ->
  let c' := fst (process_switch c name s logical) in
  timed_keys_future c' /\ registered_switches c' = registered_switches c /\
  timing_of c' = timing_of c.
Proof.
  intros Hk Hr.
  destruct (machine_switches c !! name) as [dev|] eqn:Hdev;
    [|unfold process_switch; rewrite Hdev; repeat split; apply Hk].
  set (s' := if String.eqb (sw_type dev) "NC" && negb logical then Z.lxor s 1 else s).
  destruct (run_handlers (set_state c name s') (switch_key name s')) as [c2 err] eqn:Hrh.
  pose proof (run_handlers_frame (set_state c name s') (switch_key name s')) as Hf.
  rewrite Hrh in Hf. destruct Hf as (T2 & _ & R2 & _). cbn [fst] in T2, R2.
  assert (Hk2 : keys_after (now c) (active_timed_switches c2)).
  { unfold run_handlers in Hrh.
    destruct (registered_switches (set_state c name s') !! switch_key name s') as [es|] eqn:Hes.
    - pose proof (run_entries_future (set_state c name s') (switch_key name s') es) as H.
      rewrite Hrh in H. apply H; [intros e He; exact (Hr _ _ e Hes He)|exact Hk].
    - injection Hrh as <- _. exact Hk. }
  rewrite (process_switch_split c name dev s logical c2 err Hdev Hrh).
  destruct err as [e|].
  - cbn [fst]. assert (Hn2 : now c2 = now c) by (unfold now; rewrite T2; reflexivity).
    unfold timed_keys_future. rewrite Hn2, T2, R2. repeat split; apply Hk2.
  - apply process_tail; assumption.
Qed.

Lemma tick_loop_future (c : controller) (items : list (Z * list pending)) :
  List.NoDup (map fst (active_timed_switches c)) ->
  List.NoDup (map fst items) ->
  (forall k, In k (map fst (active_timed_switches c)) -> k <= now c -> In k (map fst items)) ->
  (forall k, In k (map fst items) -> k <= now c -> In k (map fst (active_timed_switches c))) ->
  (forall log k v p, In (k, v) items -> k <= now c -> In p v ->
     raises c (log ++ [(now c, p_callback p)]) = None) ->
  let r := tick_loop c items in
  snd r = None /\ timed_keys_future (fst r) /\ timing_of (fst r) = timing_of c /\
  registered_switches (fst r) = registered_switches c.
Proof.
  revert c. induction items as [|[k v] rest IH]; intros c Hnd Hndi H3 H4 H5; simpl.
  - split; [reflexivity|]. split; [|split; reflexivity]. split; [|exact Hnd].
    intros k Hk. destruct (Z_lt_le_dec (now c) k) as [Hlt|Hle]; [exact Hlt|].
    destruct (H3 k Hk Hle).
  - cbn [map fst] in H3, H4, Hndi. inversion Hndi as [|? ? Hnin Hndr]; subst.
    destruct (k <=? now c) eqn:Hkn.
    + apply Z.leb_le in Hkn.
      pose proof (call_all_return c v
                    (fun log p Hp => H5 log k v p (or_introl eq_refl) Hkn Hp)) as Hret.
      destruct (call_all_frame c v) as [Hf Ha1].
      destruct (call_all c v) as [c1 err]. cbn [fst snd] in Hret, Hf, Ha1. subst err.
      destruct Hf as (Ht1 & _ & Hr1 & _ & _ & Hx1 & _).
      assert (Hn1 : now c1 = now c) by (unfold now; rewrite Ht1; reflexivity).
      destruct (bucket_del_present (active_timed_switches c1) k)
        as [a' Hd]; [rewrite Ha1; apply H4; [left; reflexivity|exact Hkn]|].
      rewrite Hd.
      rewrite Ha1 in Hd. destruct (bucket_del_ok _ _ _ Hd Hnd) as [Hnd' Hiff].
      assert (Hn2 : now (set_active c1 a') = now c) by exact Hn1.
      assert (Hx2 : raises (set_active c1 a') = raises c) by exact Hx1.
      destruct (IH (set_active c1 a')) as (R1 & R2 & R3 & R4).
      * exact Hnd'.
      * exact Hndr.
      * rewrite Hn2. intros k' Hk' Hle. cbn [active_timed_switches set_active] in Hk'.
        apply Hiff in Hk' as [Hk' Hne]. destruct (H3 k' Hk' Hle) as [->|Hin]; [congruence|exact Hin].
      * rewrite Hn2. intros k' Hk' Hle. apply Hiff. split; [apply H4; [right|]; assumption|].
        intros ->. exact (Hnin Hk').
      * rewrite Hn2, Hx2. intros log k' v' p Hin Hle Hp. exact (H5 log k' v' p (or_intror Hin) Hle Hp).
      * split; [exact R1|]. split; [exact R2|].
        rewrite R3, R4. simpl. rewrite Ht1, Hr1. split; reflexivity.
    + apply Z.leb_gt in Hkn.
      apply IH; [exact Hnd|exact Hndr| | |].
      * intros k' Hk' Hle. destruct (H3 k' Hk' Hle) as [->|Hin]; [lia|exact Hin].
      * intros k' Hk' Hle. apply H4; [right|]; assumption.
      * intros log k' v' p Hin Hle Hp. exact (H5 log k' v' p (or_intror Hin) Hle Hp).
Qed.

Lemma advance_future (c : controller) :
  orders_ok c -> timed_keys_future c -> pending_calls_return c ->
  let r := advance c in
  snd r = None /\ timed_keys_future (fst r) /\
  registered_switches (fst r) = registered_switches c.
Proof.
  intros Ho [_ Hnd] Hret. unfold advance, tick_hook.
  set (c1 := set_timing c _).
  destruct (Ho (active_timed_switches c)) as [_ Hp].
  assert (Hpk : Permutation (map fst (copy_order c (active_timed_switches c)))
                            (map fst (active_timed_switches c)))
    by (apply Permutation_map; exact Hp).
  destruct (tick_loop_future c1 (copy_order c (active_timed_switches c)))
    as (R1 & R2 & _ & R4).
  - exact Hnd.
  - exact (Permutation_NoDup (Permutation_sym Hpk) Hnd).
  - intros k Hk _. exact (Permutation_in _ (Permutation_sym Hpk) Hk).
  - intros k Hk _. exact (Permutation_in _ Hpk Hk).
  - intros log k v p Hin Hle Hv. exact (Hret log k v p (Permutation_in _ Hp Hin) Hle Hv).
  - split; [exact R1|]. split; [exact R2|]. exact R4.
Qed.

Lemma add_switch_handler_nonneg (c c' : controller) (name : string) (cb : nat)
    (state : Z) (ms : float) :
  add_switch_handler c name cb state ms = Ok c' ->
  (forall t, handler_ticks c ms = Ok t -> 0 <= t) -> registrations_nonneg c ->
  active_timed_switches c' = active_timed_switches c /\ timing_of c' = timing_of c /\
  registrations_nonneg c'.
Proof.
  unfold add_switch_handler. intros Hadd Hms Hr.
  destruct (handler_ticks c ms) as [t|e] eqn:Ht; simpl in Hadd; [|discriminate].
  injection Hadd as <-. split; [reflexivity|]. split; [reflexivity|].
  intros key es e Hl Hin. simpl in Hl.
  destruct (decide (key = switch_key name state)) as [->|Hne].
  - rewrite lookup_insert_eq in Hl. injection Hl as <-.
    apply in_app_or in Hin as [Hin|[<-|[]]].
    + destruct (registered_switches c !! switch_key name state) as [es0|] eqn:E;
        simpl in Hin; [exact (Hr _ _ _ E Hin)|destruct Hin].
    + exact (Hms t eq_refl).
  - rewrite lookup_insert_ne in Hl by congruence. exact (Hr _ _ _ Hl Hin).
Qed.

(** *** [float(n)] for integers below [2^53] *)

Lemma digits2_pos_iter_xO (p k : positive) :
  digits2_pos (Pos.iter xO p k) = (digits2_pos p + k)%positive.
Proof.
  induction k as [|k IH] using Pos.peano_ind.
  - simpl. rewrite Pos.add_1_r. reflexivity.
  - rewrite Pos.iter_succ. simpl. rewrite IH. lia.
Qed.

Lemma digits2_pos_lower (p : positive) : 2 ^ (Zpos (digits2_pos p) - 1) <= Zpos p.
Proof.
  induction p as [p IH|p IH|]; simpl; [| |lia];
    rewrite Pos2Z.inj_succ;
    replace (Z.succ (Zpos (digits2_pos p)) - 1) with (Z.succ (Zpos (digits2_pos p) - 1)) by lia;
    rewrite Z.pow_succ_r by lia; lia.
Qed.

Lemma round_aux_exact (s : bool) (m : positive) (e : Z) :
  Zpos (digits2_pos m) = 53 -> -52 <= e <= 0 ->
  binary_round_aux prec emax s (Zpos m) e loc_Exact = S754_finite s m e /\
  valid_binary (S754_finite s m e) = true.
Proof.
  intros Hd He.
  assert (Hf : fexp prec emax (Zpos (digits2_pos m) + e) - e = 0)
    by (unfold fexp, emin, prec, emax; rewrite Hd; lia).
  split.
  - unfold binary_round_aux, shr_fexp. cbn [Zdigits2]. rewrite Hf. cbn. rewrite Hf. cbn.
    replace (e <=? emax - prec) with true; [reflexivity|].
    symmetry. apply Z.leb_le. unfold prec, emax. lia.
  - unfold SpecFloat.valid_binary, bounded, canonical_mantissa. apply andb_true_intro. split.
    + apply Z.eqb_eq. lia.
    + apply Z.leb_le. unfold prec, emax. lia.
Qed.

Lemma binary_round_small (s : bool) (p : positive) :
  Zpos p < 2 ^ 53 ->
  exists m e, binary_round prec emax s p 0 = S754_finite s m e /\
              valid_binary (S754_finite s m e) = true.
Proof.
  intros Hp. pose proof (digits2_pos_lower p) as Hl.
  assert (Hd : Zpos (digits2_pos p) <= 53).
  { destruct (Z_le_gt_dec (Zpos (digits2_pos p)) 53) as [H|H]; [exact H|].
    assert (2 ^ 53 <= 2 ^ (Zpos (digits2_pos p) - 1)) by (apply Z.pow_le_mono_r; lia).
    lia. }
  unfold binary_round, shl_align.
  assert (Hx : fexp prec emax (Zpos (digits2_pos p) + 0) = Zpos (digits2_pos p) - 53)
    by (unfold fexp, emin, prec, emax; lia).
  rewrite Hx, Z.sub_0_r.
  destruct (Zpos (digits2_pos p) - 53) as [|k|k] eqn:Hk.
  - exists p, 0. apply round_aux_exact; lia.
  - lia.
  - exists (Pos.iter xO p k), (Zneg k). apply round_aux_exact; [|lia].
    rewrite digits2_pos_iter_xO, Pos2Z.inj_add. lia.
Qed.

Lemma py_float_of_Z_small (hz : Z) :
  hz <> 0 -> Z.abs hz < 2 ^ 53 ->
  exists f, py_float_of_Z hz = Ok f /\ (f =? 0)%float = false.
Proof.
  intros Hz Ha. unfold py_float_of_Z, binary_normalize.
  destruct hz as [|p|p]; [congruence| |]; simpl in Ha;
    [destruct (binary_round_small false p Ha) as (m & e & Hr & Hv)
    |destruct (binary_round_small true p Ha) as (m & e & Hr & Hv)];
    rewrite Hr;
    (assert (Hinf : is_infinity (SF2Prim (S754_finite _ m e)) = false)
      by (unfold is_infinity; rewrite FloatAxioms.eqb_spec, abs_spec, Prim2SF_SF2Prim
            by exact Hv; reflexivity));
    rewrite Hinf; eexists; (split; [reflexivity|]);
    rewrite FloatAxioms.eqb_spec, Prim2SF_SF2Prim by exact Hv; reflexivity.
Qed.

(** ** The timing service *)

Lemma upper_char_not_lower (c : ascii) :
  is_lower (if is_lower c then ascii_of_nat (nat_of_ascii c - 32) else c) = false.
Proof.
  destruct (is_lower c) eqn:Hc; [|exact Hc].
  unfold is_lower in *.
  apply andb_prop in Hc as [H1 H2].
  apply Nat.leb_le in H1. apply Nat.leb_le in H2.
  rewrite nat_ascii_embedding by lia.
  destruct (97 <=? nat_of_ascii c - 32)%nat eqn:H3; [|reflexivity].
  apply Nat.leb_le in H3. lia.
Qed.

Lemma upper_get_not_lower (s : string) (i : nat) (c : ascii) :
  String.get i (upper s) = Some c -> is_lower c = false.
Proof.
  revert i. induction s as [|a s IH]; intros i H; [discriminate|].
  destruct i as [|i]; simpl in H.
  - injection H as <-. apply upper_char_not_lower.
  - exact (IH i H).
Qed.

Lemma endswith_get (s suf : string) (i : nat) (c : ascii) :
  endswith s suf = true -> String.get i suf = Some c ->
  String.get (i + (String.length s - String.length suf)) s = Some c.
Proof.
  unfold endswith. intros H Hget.
  apply andb_prop in H as [_ H]. apply String.eqb_eq in H.
  assert (Hi : (i < String.length suf)%nat).
  { clear H. revert i Hget. induction suf as [|a suf IH]; intros i Hget;
      [discriminate|]. destruct i; simpl in *; [lia|]. specialize (IH _ Hget). lia. }
  rewrite <- (substring_correct1 s (String.length s - String.length suf)
               (String.length suf) i Hi).
  rewrite H. exact Hget.
Qed.

(** No suffix containing a lower-case letter ends an upper-cased string. *)
Lemma endswith_upper_lower (s suf : string) (i : nat) (c : ascii) :
  String.get i suf = Some c -> is_lower c = true -> endswith (upper s) suf = false.
Proof.
  intros Hget Hl. destruct (endswith (upper s) suf) eqn:He; [|reflexivity].
  pose proof (endswith_get _ _ _ _ He Hget) as Hu.
  apply upper_get_not_lower in Hu. congruence.
Qed.

(** C4: [time_to_ticks] upper-cases its argument and then tests for the
    lower-case suffixes ["ms"] and ["msec"], so every string is parsed as
    seconds: ["200ms"] at 50 Hz gives [secs(200) = 10000] ticks where
    [msecs(200) = 10]. *)
Theorem C4_time_to_ticks_always_seconds :
  (forall (t : timing) (s : string),
      time_to_ticks t s = (let* f := py_float_str (drop_alpha (upper s)) in secs t f)) /\
  time_to_ticks t50 "200ms" = Ok 10000 /\ msecs t50 200 = Ok 10.
Proof.
  split; [|vm_compute; split; reflexivity].
  intros t s. unfold time_to_ticks.
  rewrite (endswith_upper_lower s "ms" 0 "m") by reflexivity.
  rewrite (endswith_upper_lower s "msec" 0 "m") by reflexivity.
  reflexivity.
Qed.

(** C5 counterexample: [configure] accepts a negative rate and a second call
    with a different rate without raising, and for rate 0 raises
    [ZeroDivisionError] from [1 / float(HZ)]. *)
Lemma C5_configure_checks_nothing :
  snd (configure Timing.initial (-5)) = None /\
  snd (configure t50 60) = None /\ HZ (fst (configure t50 60)) = Some 60 /\
  snd (configure Timing.initial 0) = Some ZeroDivisionError.
Proof. vm_compute. repeat split. Qed.

(** C6 counterexample: a periodic timer (5 ticks, due at tick 1) whose
    callback raises: after [timer_tick] the timer is still in the set with
    wakeup 1, not 1 + 5. *)
Lemma C6_wakeup_not_advanced_on_raise :
  timer_tick (fun _ => Some (CallbackRaised 7)) t50 [mk_timer 7 (Some 1) 5]
  = (mk_timing (Some 50) (secs_per_tick t50) 1, [mk_timer 7 (Some 1) 5], [7%nat],
     Some (CallbackRaised 7)).
Proof. vm_compute. reflexivity. Qed.

Lemma fire_timers_raise (run : nat -> option exn) (now : Z) (ts ts' : list timer)
    (calls : list nat) (e : exn) :
  fire_timers run now ts = (ts', calls, Some e) ->
  exists pre tm post,
    ts = pre ++ tm :: post /\
    ts' = map (fun x => if due now x then after_call x else x) pre ++ tm :: post /\
    calls = map callback (List.filter (due now) pre) ++ [callback tm] /\
    (forall x, In x pre -> due now x = true -> run (callback x) = None) /\
    due now tm = true /\ run (callback tm) = Some e.
Proof.
  revert ts' calls. induction ts as [|tm rest IH]; intros ts' calls H; [discriminate|].
  simpl in H. destruct (due now tm) eqn:Hdue.
  - destruct (run (callback tm)) as [e'|] eqn:Hrun.
    + injection H as <- <- <-. exists [], tm, rest. repeat split; try assumption.
      intros x [].
    + destruct (fire_timers run now rest) as [[r cs] err] eqn:Hr.
      injection H as <- <- ->.
      destruct (IH _ _ eq_refl) as (pre & tm' & post & -> & -> & -> & Hp & Hd & Hx).
      exists (tm :: pre), tm', post. cbn [map List.filter app]. rewrite Hdue.
      repeat split; try assumption.
      intros x [<-|Hin] Hdx; [exact Hrun|exact (Hp x Hin Hdx)].
  - destruct (fire_timers run now rest) as [[r cs] err] eqn:Hr.
    injection H as <- <- ->.
    destruct (IH _ _ eq_refl) as (pre & tm' & post & -> & -> & -> & Hp & Hd & Hx).
    exists (tm :: pre), tm', post. cbn [map List.filter app]. rewrite Hdue.
    repeat split; try assumption.
    intros x [<-|Hin] Hdx; [congruence|exact (Hp x Hin Hdx)].
Qed.

(** C6, as the code does it: when a timer's callback raises during
    [timer_tick], the exception escapes, the tick has been advanced, and the
    raising timer is still in the set, at its place, with its wakeup left as
    it was (not advanced): it is still due.  The timers before it were
    processed: the due ones were called, in order, returned normally and
    were advanced (or cleared); the others are unchanged.  The timers after
    it are untouched. *)
Theorem C6_raising_timer_kept_unadvanced :
  forall (run : nat -> option exn) (t t' : timing) (ts ts' : list timer)
         (calls : list nat) (e : exn),
    timer_tick run t ts = (t', ts', calls, Some e) ->
    tick t' = tick t + 1 /\
    exists pre tm post,
      ts = pre ++ tm :: post /\
      ts' = map (fun x => if due (tick t') x then after_call x else x) pre ++ tm :: post /\
      calls = map callback (List.filter (due (tick t')) pre) ++ [callback tm] /\
      (forall x, In x pre -> due (tick t') x = true -> run (callback x) = None) /\
      due (tick t') tm = true /\ run (callback tm) = Some e.
Proof.
  intros run t t' ts ts' calls e H. unfold timer_tick in H. cbn [tick] in H.
  destruct (fire_timers run (tick t + 1) ts) as [[r cs] err] eqn:Hf.
  injection H as <- <- <- ->. split; [reflexivity|].
  exact (fire_timers_raise _ _ _ _ _ _ Hf).
Qed.

Lemma C6_witness :
  let run := fun cb => if Nat.eqb cb 7 then Some (CallbackRaised 7) else None in
  let ts := [mk_timer 1 (Some 1) 5; mk_timer 2 (Some 3) 5; mk_timer 7 (Some 1) 5;
             mk_timer 8 (Some 1) 5] in
  let t' := mk_timing (Some 50) (secs_per_tick t50) 1 in
  let ts' := [mk_timer 1 (Some 6) 5; mk_timer 2 (Some 3) 5; mk_timer 7 (Some 1) 5;
              mk_timer 8 (Some 1) 5] in
  timer_tick run t50 ts = (t', ts', [1%nat; 7%nat], Some (CallbackRaised 7)) /\
  (tick t' = tick t50 + 1 /\
   exists pre tm post,
     ts = pre ++ tm :: post /\
     ts' = map (fun x => if due (tick t') x then after_call x else x) pre ++ tm :: post /\
     [1%nat; 7%nat] = map callback (List.filter (due (tick t')) pre) ++ [callback tm] /\
     (forall x, In x pre -> due (tick t') x = true -> run (callback x) = None) /\
     due (tick t') tm = true /\ run (callback tm) = Some (CallbackRaised 7)).
Proof.
  intros run ts t' ts'.
  assert (H : timer_tick run t50 ts = (t', ts', [1%nat; 7%nat], Some (CallbackRaised 7)))
    by (vm_compute; reflexivity).
  split; [exact H|].
  exact (C6_raising_timer_kept_unadvanced _ _ _ _ _ _ _ H).
Defined.

(** C10: [Timer(callback)] without a frequency raises [TypeError]
    ([None / 1000]) instead of building a dormant timer. *)
Theorem C10_timer_without_frequency_raises :
  forall (t : timing) (cb : nat), timer_init t cb None = Err TypeError.
Proof. intros t cb. unfold timer_init. destruct (HZ t); reflexivity. Qed.


(** *** Lengths of float vectors *)

Lemma round_aux_nonneg (m e : Z) (l : location) :
  sf_nonneg (binary_round_aux prec emax false m e l) = true.
Proof.
  unfold binary_round_aux.
  destruct (shr_fexp _ _ m e l) as [r1 e1].
  destruct (shr_fexp _ _ _ e1 loc_Exact) as [r2 e2].
  destruct (shr_m r2); [reflexivity| |reflexivity].
  destruct (_ <=? _); reflexivity.
Qed.

Lemma mul_self_nonneg (x : spec_float) : sf_nonneg (SFmul prec emax x x) = true.
Proof.
  destruct x as [[]|[]| |[] m e]; try reflexivity; apply round_aux_nonneg.
Qed.

Lemma add_nonneg (x y : spec_float) :
  sf_nonneg x = true -> sf_nonneg y = true -> sf_nonneg (SFadd prec emax x y) = true.
Proof.
  destruct x as [[]|[]| |[] mx ex]; destruct y as [[]|[]| |[] my ey]; intros Hx Hy;
    try discriminate; try reflexivity.
  unfold SFadd, cond_Zopp, binary_normalize.
  destruct (shl_align mx ex _) as [a1 b1]. destruct (shl_align my ey _) as [a2 b2].
  change (Z.pos (fst (a1, b1)) + Z.pos (fst (a2, b2))) with (Z.pos (a1 + a2)).
  unfold binary_round. destruct (shl_align _ _ _) as [mz ez]. apply round_aux_nonneg.
Qed.

Lemma sum_squares_not_negative (x y z : float) :
  ((x * x + y * y + z * z) <? 0)%float = false.
Proof.
  rewrite ltb_spec, !add_spec, !mul_spec.
  assert (H : sf_nonneg (SF64add (SF64add (SF64mul (Prim2SF x) (Prim2SF x))
                                          (SF64mul (Prim2SF y) (Prim2SF y)))
                                 (SF64mul (Prim2SF z) (Prim2SF z))) = true)
    by (apply add_nonneg; [apply add_nonneg|]; apply mul_self_nonneg).
  revert H. generalize (SF64add (SF64add (SF64mul (Prim2SF x) (Prim2SF x))
                                         (SF64mul (Prim2SF y) (Prim2SF y)))
                                (SF64mul (Prim2SF z) (Prim2SF z))).
  intros f Hf. destruct f as [[]|[]| |[] m e]; try discriminate; reflexivity.
Qed.

Lemma calculate_vector_length_ok (x y z : float) :
  calculate_vector_length x y z = Ok (sqrt (x * x + y * y + z * z))%float.
Proof.
  unfold calculate_vector_length, py_sqrt. rewrite sum_squares_not_negative. reflexivity.
Qed.

Lemma handle_hits_ok (cfg : config) (dx dy dz : float) :
  exists hits, handle_hits cfg dx dy dz = Ok hits.
Proof.
  unfold handle_hits. rewrite calculate_vector_length_ok. eexists. reflexivity.
Qed.

Lemma finite_times_zero (l : float) : is_finite l = true -> (l * 0 =? 0)%float = true.
Proof.
  unfold is_finite, is_nan, is_infinity.
  rewrite !FloatAxioms.eqb_spec, abs_spec, mul_spec.
  destruct (Prim2SF l) as [[]|[]| |[] m e]; vm_compute; congruence.
Qed.

Lemma outside_unit_not_nan (r : float) :
  ((r <? -1) || (1 <? r))%float = true -> is_nan r = false.
Proof.
  unfold is_nan. rewrite FloatAxioms.eqb_spec, !ltb_spec.
  destruct (Prim2SF r) as [s|s| |s m e]; intros H.
  - destruct s; reflexivity.
  - destruct s; reflexivity.
  - vm_compute in H. discriminate H.
  - unfold SFeqb, SFcompare. rewrite Z.compare_refl, Pos.compare_cont_refl.
    destruct s; reflexivity.
Qed.

Lemma update_level_error (libm : float -> float) (cfg : config) (st : accel)
    (x y z : float) (e : exn) :
  handle_level libm cfg x y z = Err e ->
  exists hits, update_acceleration libm cfg st x y z =
    (mk_accel (Some (x, y, z)) (Some (fst (filter_step (history st) x y z))), hits, Some e).
Proof.
  intros H. unfold update_acceleration.
  destruct (filter_step (history st) x y z) as [h' [[dx dy] dz]].
  destruct (handle_hits_ok cfg dx dy dz) as [hits ->]. rewrite H.
  exists hits. reflexivity.
Qed.

(** ** The accelerometer *)

(** C7 counterexample: with [alpha: 0.5] in the configuration, history
    (0, 0, 0) and sample (1, 1, 1), the filter moves to 0.05 per axis
    (alpha 0.95), not to the 0.5 the configured alpha gives. *)
Lemma C7_configured_alpha_ignored :
  ~ (forall (libm : float -> float) (cfg : config) (v : option vec) (h : vec)
            (x y z : float),
        history (fst (fst (update_acceleration libm cfg (mk_accel v (Some h)) x y z)))
        = Some (spec_filtered cfg h x y z)).
Proof.
  intros H.
  specialize (H (fun f => f) (mk_config 0 0 1 [] [] (Some 0.5%float)) None
                (0%float, 0%float, 0%float) 1%float 1%float 1%float).
  apply (f_equal (fun o => match o with
                           | Some (a, _, _) => PrimFloat.eqb a 0.5
                           | None => false end)) in H.
  vm_compute in H. discriminate H.
Qed.

(** C7, as the code does it: after the first sample, the deltas handed to
    hit detection are the sample minus the pre-update filtered state, and
    the filtered state becomes [filtered * 0.95 + sample * (1 - 0.95)] with
    the constant 0.95, whatever the configuration holds. *)
Theorem C7_filter_step_constant_alpha :
  forall (libm : float -> float) (cfg : config) (v : option vec) (h0 h1 h2 x y z : float),
    let r := update_acceleration libm cfg (mk_accel v (Some (h0, h1, h2))) x y z in
    fst (fst r) = mk_accel (Some (x, y, z))
                    (Some ((h0 * 0.95 + x * (1 - 0.95))%float,
                           (h1 * 0.95 + y * (1 - 0.95))%float,
                           (h2 * 0.95 + z * (1 - 0.95))%float)) /\
    match handle_hits cfg (x - h0)%float (y - h1)%float (z - h2)%float with
    | Err e => snd r = Some e /\ snd (fst r) = []
    | Ok hits => exists rest, snd (fst r) = hits ++ rest
    end.
Proof.
  intros libm cfg v h0 h1 h2 x y z r. subst r.
  unfold update_acceleration. simpl.
  destruct (handle_hits cfg _ _ _) as [hits|e]; simpl.
  - destruct (handle_level libm cfg x y z) as [levels|e]; simpl.
    + split; [reflexivity|]. exists levels. reflexivity.
    + split; [reflexivity|]. exists []. rewrite app_nil_r. reflexivity.
  - split; [reflexivity|]. split; reflexivity.
Qed.

(** C9 (amended): provided every registered handler has a non-negative tick
    count [int(ceil(ms/secs_per_tick/1000))], including the one an
    [add_switch_handler] call adds, each public operation ([process_switch],
    [add_switch_handler], and one tick followed by the per-tick hook) keeps
    every key of [active_timed_switches] strictly greater than
    [Timing.tick] and the keys distinct.  [process_switch] and
    [add_switch_handler] keep it even when they raise, a raising handler
    callback included.  The tick keeps it, and does not raise, when the
    callbacks of the fires due at that tick return normally.  The dict is
    iterated over each entry once, in any order. *)
Theorem C9_step_keeps_keys_future (c : controller) (o : op) :
  orders_ok c -> timed_keys_future c -> registrations_nonneg c -> op_nonneg c o ->
  op_calls_return c o ->
  timed_keys_future (fst (step c o)) /\ registrations_nonneg (fst (step c o)) /\
  (o = Advance -> snd (step c o) = None).
Proof.
  intros Hord Hk Hr Ho Hret. destruct o as [name s logical|name cb s ms|];
    simpl in Ho, Hret |- *.
  - destruct (process_switch_future c name s logical Hk Hr) as (H1 & H2 & _).
    split; [exact H1|]. split; [|discriminate].
    unfold registrations_nonneg. rewrite H2. exact Hr.
  - destruct (add_switch_handler c name cb s ms) as [c'|e] eqn:E; simpl;
      [|split; [exact Hk|split; [exact Hr|discriminate]]].
    destruct (add_switch_handler_nonneg c c' name cb s ms E Ho Hr) as (H1 & H2 & H3).
    split; [|split; [exact H3|discriminate]].
    unfold timed_keys_future, now. rewrite H1, H2. exact Hk.
  - destruct (advance_future c Hord Hk Hret) as (H1 & H2 & H3).
    split; [exact H2|]. split; [|intros _; exact H1].
    unfold registrations_nonneg. rewrite H3. exact Hr.
Qed.

Lemma C9_witness :
  let c := fst (run c0 [AddHandler "A" 1 1 100; ProcessSwitch "A" 1 false;
                        Advance; Advance; Advance; Advance]) in
  (orders_ok c /\ timed_keys_future c /\ registrations_nonneg c /\ op_nonneg c Advance /\
   op_calls_return c Advance) /\
  (timed_keys_future (fst (step c Advance)) /\ registrations_nonneg (fst (step c Advance)) /\
   (Advance = Advance -> snd (step c Advance) = None)).
Proof.
  intros c.
  assert (Hord : orders_ok c).
  { assert (Hi : items_order c = fun a => a) by (vm_compute; reflexivity).
    assert (Hc : copy_order c = fun a => a) by (vm_compute; reflexivity).
    intros a. rewrite Hi, Hc. split; apply Permutation_refl. }
  assert (Ha : active_timed_switches c = [(5, [mk_pending "A-1" 1])])
    by (vm_compute; reflexivity).
  assert (Hn : now c = 4) by (vm_compute; reflexivity).
  assert (Hk : timed_keys_future c).
  { unfold timed_keys_future. rewrite Ha, Hn.
    split; [intros k [<-|[]]; simpl; lia|constructor; [intros []|constructor]]. }
  assert (Hreg : registered_switches c = <["A-1" := [mk_entry 5 1]]> ∅)
    by (vm_compute; reflexivity).
  assert (Hr : registrations_nonneg c).
  { intros key es e Hl Hin. rewrite Hreg in Hl.
    destruct (decide (key = "A-1")) as [->|Hne].
    - rewrite lookup_insert_eq in Hl. injection Hl as <-.
      destruct Hin as [<-|[]]. simpl. lia.
    - rewrite lookup_insert_ne, lookup_empty in Hl by congruence. discriminate. }
  assert (Hret : op_calls_return c Advance).
  { assert (Hx : raises c = fun _ => None) by (vm_compute; reflexivity).
    intros log k v p _ _ _. rewrite Hx. reflexivity. }
  split; [split; [exact Hord|split; [exact Hk|split; [exact Hr|split; [exact I|exact Hret]]]]|].
  exact (C9_step_keeps_keys_future c Advance Hord Hk Hr I Hret).
Defined.

(** C5 (amended): [configure] validates nothing and has no error of its own.
    Whatever it is given, it stores [HZ] (also when it then raises) and
    keeps the tick.  [HZ = 0] raises [ZeroDivisionError] from
    [1 / float(HZ)].  Every other [HZ] with [|HZ| < 2^53], negative rates and
    a second call with a different value included, returns normally with
    [secs_per_tick = 1 / float(HZ)]. *)
Theorem C5_configure_validates_nothing (t : timing) (hz : Z) :
  HZ (fst (configure t hz)) = Some hz /\ tick (fst (configure t hz)) = tick t /\
  (hz = 0 -> snd (configure t hz) = Some ZeroDivisionError) /\
  (hz <> 0 -> Z.abs hz < 2 ^ 53 ->
   exists f, py_float_of_Z hz = Ok f /\ snd (configure t hz) = None /\
             secs_per_tick (fst (configure t hz)) = Some (1 / f)%float).
Proof.
  unfold configure.
  assert (Hall : forall r : result float,
             HZ (fst (match r with
                      | Ok spt => (mk_timing (Some hz) (Some spt) (tick t), None)
                      | Err e => (mk_timing (Some hz) (secs_per_tick t) (tick t), Some e)
                      end)) = Some hz /\
             tick (fst (match r with
                        | Ok spt => (mk_timing (Some hz) (Some spt) (tick t), None)
                        | Err e => (mk_timing (Some hz) (secs_per_tick t) (tick t), Some e)
                        end)) = tick t)
    by (intros [r|r]; split; reflexivity).
  destruct (Hall (let* f := py_float_of_Z hz in py_div 1 f)) as [H1 H2].
  split; [exact H1|]. split; [exact H2|]. split.
  - intros ->. reflexivity.
  - intros Hz Ha. destruct (py_float_of_Z_small hz Hz Ha) as (f & Hf & H0).
    exists f. rewrite Hf. simpl. unfold py_div. rewrite H0. repeat split.
Qed.

Lemma C5_witness :
  (60 <> 0 /\ Z.abs 60 < 2 ^ 53) /\
  exists f, py_float_of_Z 60 = Ok f /\ snd (configure t50 60) = None /\
            secs_per_tick (fst (configure t50 60)) = Some (1 / f)%float.
Proof.
  split; [split; [discriminate|reflexivity]|].
  destruct (C5_configure_validates_nothing t50 60) as (_ & _ & _ & H).
  apply H; [discriminate|reflexivity].
Defined.

(** C8 counterexample: level detection is neither skipped nor clamped.  With
    reference (0, 0, 1), a first sample (0, 0, 0), whose length is 0, makes
    [update_acceleration] raise [ZeroDivisionError]; with reference
    (1, 1, 1) and sample (1, 1, 1) the rounded quotient is just above 1 and
    [math.acos] raises [ValueError]. *)
Lemma C8_zero_length_not_skipped :
  ~ (forall (libm : float -> float) (cfg : config) (st : accel) (x y z : float),
        calculate_vector_length x y z = Ok 0%float ->
        snd (update_acceleration libm cfg st x y z) = None) /\
  snd (update_acceleration (fun f => f) cfg_111 Accelerometer.initial 1 1 1)
  = Some ValueError.
Proof.
  split.
  - intros H.
    specialize (H (fun f => f) cfg_z Accelerometer.initial 0%float 0%float 0%float
                  ltac:(vm_compute; reflexivity)).
    vm_compute in H. discriminate H.
  - vm_compute. reflexivity.
Qed.

(** [update_acceleration] once the filter step is done: hit detection
    never raises, then level detection runs. *)
Lemma update_hits_then_level (libm : float -> float) (cfg : config) (st : accel)
    (x y z : float) :
  let st' := mk_accel (Some (x, y, z)) (Some (fst (filter_step (history st) x y z))) in
  let d := snd (filter_step (history st) x y z) in
  exists hits, handle_hits cfg (fst (fst d)) (snd (fst d)) (snd d) = Ok hits /\
    update_acceleration libm cfg st x y z =
    match handle_level libm cfg x y z with
    | Err e => (st', hits, Some e)
    | Ok levels => (st', hits ++ levels, None)
    end.
Proof.
  intros st' d. subst st' d. unfold update_acceleration.
  destruct (filter_step (history st) x y z) as [h' [[dx dy] dz]]. cbn [fst snd].
  destruct (handle_hits_ok cfg dx dy dz) as [hits Hh]. exists hits. split; [exact Hh|].
  rewrite Hh. reflexivity.
Qed.

(** C8 (amended): [update_acceleration] neither skips nor clamps.  It
    first stores the sample and the filter update, then runs hit detection,
    which never raises, on the deltas.  Level detection then divides by
    [|L| * |S|] and calls [math.acos]: its events are posted after the hit
    events, and any error of it escapes the call, after the hit events.  A
    sample of computed length 0, with a reference of finite length, raises
    [ZeroDivisionError].  A quotient [(L.S)/(|L| |S|)] outside [-1, 1]
    raises [ValueError]. *)
Theorem C8_level_errors_escape (libm : float -> float) (cfg : config) (st : accel)
    (x y z : float) :
  let st' := mk_accel (Some (x, y, z)) (Some (fst (filter_step (history st) x y z))) in
  let d := snd (filter_step (history st) x y z) in
  exists hits, handle_hits cfg (fst (fst d)) (snd (fst d)) (snd d) = Ok hits /\
  (forall levels, handle_level libm cfg x y z = Ok levels ->
     update_acceleration libm cfg st x y z = (st', hits ++ levels, None)) /\
  (forall e, handle_level libm cfg x y z = Err e ->
     update_acceleration libm cfg st x y z = (st', hits, Some e)) /\
  (forall l1, calculate_vector_length (level_x cfg) (level_y cfg) (level_z cfg) = Ok l1 ->
     is_finite l1 = true -> calculate_vector_length x y z = Ok 0%float ->
     update_acceleration libm cfg st x y z = (st', hits, Some ZeroDivisionError)) /\
  (forall l1 l2 r,
     calculate_vector_length (level_x cfg) (level_y cfg) (level_z cfg) = Ok l1 ->
     calculate_vector_length x y z = Ok l2 ->
     py_div (level_x cfg * x + level_y cfg * y + level_z cfg * z)%float (l1 * l2)%float
       = Ok r ->
     ((r <? -1) || (1 <? r))%float = true ->
     update_acceleration libm cfg st x y z = (st', hits, Some ValueError)).
Proof.
  intros st' d. destruct (update_hits_then_level libm cfg st x y z) as (hits & Hh & Hu).
  exists hits. split; [exact Hh|].
  assert (He : forall e, handle_level libm cfg x y z = Err e ->
                 update_acceleration libm cfg st x y z = (st', hits, Some e))
    by (intros e H; rewrite Hu, H; reflexivity).
  split; [intros levels H; rewrite Hu, H; reflexivity|]. split; [exact He|]. split.
  - intros l1 H1 Hf H2. apply He.
    unfold handle_level, calculate_angle. rewrite H1, H2. cbn [rbind].
    unfold py_div. rewrite (finite_times_zero l1 Hf). reflexivity.
  - intros l1 l2 r H1 H2 H3 H4. apply He.
    unfold handle_level, calculate_angle. rewrite H1, H2. cbn [rbind].
    rewrite H3. cbn [rbind]. unfold py_acos.
    rewrite (outside_unit_not_nan r H4), H4. reflexivity.
Qed.

Lemma C8_witness :
  calculate_vector_length (level_x cfg_z) (level_y cfg_z) (level_z cfg_z) = Ok 1%float /\
  is_finite 1 = true /\ calculate_vector_length 0 0 0 = Ok 0%float /\
  exists hits, handle_hits cfg_z 0 0 0 = Ok hits /\
    update_acceleration (fun f => f) cfg_z Accelerometer.initial 0 0 0 =
    (mk_accel (Some (0%float, 0%float, 0%float))
       (Some (fst (filter_step None 0 0 0))), hits, Some ZeroDivisionError).
Proof.
  assert (H1 : calculate_vector_length (level_x cfg_z) (level_y cfg_z) (level_z cfg_z)
               = Ok 1%float) by (vm_compute; reflexivity).
  assert (H2 : is_finite 1 = true) by reflexivity.
  assert (H3 : calculate_vector_length 0 0 0 = Ok 0%float) by (vm_compute; reflexivity).
  split; [exact H1|]. split; [exact H2|]. split; [exact H3|].
  destruct (C8_level_errors_escape (fun f => f) cfg_z Accelerometer.initial 0 0 0)
    as (hits & Hh & _ & _ & Hz & _).
  exists hits. split; [exact Hh|]. exact (Hz 1%float H1 H2 H3).
Defined.

End Claims.

(** ** Further properties of the code *)
Module Extras.
Import Timing SwitchController Accelerometer BaseSerialCommunicator Props.

(** *** Timers *)

Lemma fire_timers_ok (run : nat -> option exn) (now : Z) (ts : list timer) :
  (forall cb, run cb = None) ->
  fire_timers run now ts =
  (map (fun tm => if due now tm then after_call tm else tm) ts,
   map callback (List.filter (due now) ts), None).
Proof.
  intros Hrun. induction ts as [|tm rest IH]; [reflexivity|]. simpl.
  destruct (due now tm) eqn:E; [rewrite Hrun|]; rewrite IH; cbn [List.filter map]; rewrite ?E;
    reflexivity.
Qed.

(** With callbacks that do not raise, one [timer_tick] advances the tick by
    one and treats every timer on its own: each due timer (truthy wakeup at
    or before the new tick) is called, in set order, then advanced by its
    frequency or cleared; the others are left as they are. *)
Theorem X1_timer_tick_independent (run : nat -> option exn) (t : timing) (ts : list timer) :
  (forall cb, run cb = None) ->
  timer_tick run t ts =
  (mk_timing (HZ t) (secs_per_tick t) (tick t + 1),
   map (fun tm => if due (tick t + 1) tm then after_call tm else tm) ts,
   map callback (List.filter (due (tick t + 1)) ts), None).
Proof.
  intros Hrun. unfold timer_tick. simpl. rewrite (fire_timers_ok run _ ts Hrun). reflexivity.
Qed.

Lemma X1_witness :
  timer_tick (fun _ => None) t50 [mk_timer 3 (Some 1) 2; mk_timer 4 (Some 7) 0] =
  (mk_timing (HZ t50) (secs_per_tick t50) (tick t50 + 1),
   map (fun tm => if due (tick t50 + 1) tm then after_call tm else tm)
     [mk_timer 3 (Some 1) 2; mk_timer 4 (Some 7) 0],
   map callback (List.filter (due (tick t50 + 1)) [mk_timer 3 (Some 1) 2; mk_timer 4 (Some 7) 0]),
   None).
Proof. apply X1_timer_tick_independent. intros _. reflexivity. Defined.

Lemma flat_map_map_nat {B} (f : nat -> list B) (l : list nat) :
  flat_map f (map S l) = flat_map (fun i => f (S i)) l.
Proof. induction l as [|a l IH]; simpl; [reflexivity|]. rewrite IH. reflexivity. Qed.

Lemma periodic_step (f j : Z) :
  0 < f -> 0 <= j ->
  ((f * (j / f + 1) <=? j + 1) = ((j + 1) mod f =? 0)) /\
  (((j + 1) mod f =? 0) = true -> f * (j / f + 1) + f = f * ((j + 1) / f + 1)) /\
  (((j + 1) mod f =? 0) = false -> j / f = (j + 1) / f).
Proof.
  intros Hf Hj.
  pose proof (Z.div_mod j f ltac:(lia)) as Hdm.
  pose proof (Z.mod_pos_bound j f Hf) as Hr.
  set (q := j / f) in *. set (r := j mod f) in *.
  destruct (Z.eq_dec r (f - 1)) as [Hre|Hrne].
  - assert (Hq : (j + 1) / f = q + 1) by (symmetry; apply (Z.div_unique_pos _ _ _ 0); lia).
    assert (Hm : (j + 1) mod f = 0) by (symmetry; apply (Z.mod_unique_pos _ _ (q + 1)); lia).
    rewrite Hq, Hm. simpl. split; [apply Z.leb_le; nia|]. split; [intros _; ring|discriminate].
  - assert (Hq : (j + 1) / f = q) by (symmetry; apply (Z.div_unique_pos _ _ _ (r + 1)); lia).
    assert (Hm : (j + 1) mod f = r + 1) by (symmetry; apply (Z.mod_unique_pos _ _ q); lia).
    rewrite Hq, Hm.
    replace (r + 1 =? 0) with false by (symmetry; apply Z.eqb_neq; lia).
    split; [apply Z.leb_gt; nia|]. split; [discriminate|reflexivity].
Qed.

Lemma periodic_inv (run : nat -> option exn) (t0 f : Z) (cb : nat) (n : nat) :
  (forall cb, run cb = None) -> 0 < f -> 0 <= t0 ->
  forall (j : Z) (tt : timing), 0 <= j -> tick tt = t0 + j ->
  let r := run_ticks run tt [mk_timer cb (Some (t0 + f * (j / f + 1))) f] n in
  snd r = None /\
  snd (fst r) = flat_map (fun i : nat => if (j + Z.of_nat i) mod f =? 0
                                         then [(t0 + j + Z.of_nat i, cb)] else [])
                         (seq 1 n).
Proof.
  intros Hrun Hf Ht0. induction n as [|n IH]; intros j tt Hj Htt; [split; reflexivity|].
  destruct (periodic_step f j Hf Hj) as (Hd & Hup & Hkeep).
  cbn [run_ticks]. unfold timer_tick. cbn [tick fire_timers].
  assert (Hdue : due (tick tt + 1) (mk_timer cb (Some (t0 + f * (j / f + 1))) f)
                 = ((j + 1) mod f =? 0)).
  { unfold due. cbn [wakeup]. unfold wakeup_truthy.
    replace (t0 + f * (j / f + 1) =? 0) with false
      by (symmetry; apply Z.eqb_neq; pose proof (Z.div_pos j f Hj Hf); nia).
    rewrite Htt, <- Hd. simpl negb. cbn [andb].
    destruct (Z.leb_spec (t0 + f * (j / f + 1)) (t0 + j + 1));
      destruct (Z.leb_spec (f * (j / f + 1)) (j + 1)); reflexivity || lia. }
  rewrite Hdue.
  assert (Hseq : flat_map (fun i : nat => if (j + Z.of_nat i) mod f =? 0
                                         then [(t0 + j + Z.of_nat i, cb)] else [])
                          (seq 1 (S n)) =
                 (if (j + 1) mod f =? 0 then [(t0 + j + 1, cb)] else []) ++
                 flat_map (fun i : nat => if (j + 1 + Z.of_nat i) mod f =? 0
                                          then [(t0 + (j + 1) + Z.of_nat i, cb)] else [])
                          (seq 1 n)).
  { cbn [seq flat_map]. rewrite <- seq_shift, flat_map_map_nat. f_equal.
    apply flat_map_ext. intros i.
    replace (j + Z.of_nat (S i)) with (j + 1 + Z.of_nat i) by lia.
    replace (t0 + j + Z.of_nat (S i)) with (t0 + (j + 1) + Z.of_nat i) by lia.
    reflexivity. }
  rewrite Hseq.
  assert (Htt1 : tick (mk_timing (HZ tt) (secs_per_tick tt) (tick tt + 1)) = t0 + (j + 1))
    by (simpl; lia).
  destruct ((j + 1) mod f =? 0) eqn:Em.
  - rewrite Hrun. cbn [fire_timers]. unfold after_call. cbn [frequency wakeup callback option_map].
    replace (negb (f =? 0)) with true by (symmetry; apply negb_true_iff, Z.eqb_neq; lia).
    replace (t0 + f * (j / f + 1) + f) with (t0 + f * ((j + 1) / f + 1))
      by (rewrite <- (Hup eq_refl); ring).
    destruct (IH (j + 1) _ ltac:(lia) Htt1) as [H1 H2].
    destruct (run_ticks run _ _ n) as [[[t2 ts2] log2] err2]. simpl in H1, H2 |- *.
    split; [exact H1|]. rewrite H2, Htt. repeat f_equal; lia.
  - cbn [fire_timers]. rewrite (Hkeep eq_refl).
    destruct (IH (j + 1) _ ltac:(lia) Htt1) as [H1 H2].
    destruct (run_ticks run _ _ n) as [[[t2 ts2] log2] err2]. simpl in H1, H2 |- *.
    split; [exact H1|]. exact H2.
Qed.

(** A timer with a positive frequency [f], added with [Timing.add] at tick
    [t >= 0] and alone in the timer set, is called over the next [n] ticks
    exactly at the ticks [t + i] with [f] dividing [i] (that is, at
    [t + f], [t + 2f], ...), once each, when its callback does not raise. *)
Theorem X2_periodic_timer_fires_every_f_ticks (run : nat -> option exn) (t : timing)
    (tm : timer) (n : nat) :
  (forall cb, run cb = None) -> 0 < frequency tm -> 0 <= tick t ->
  let r := run_ticks run t (add t [] tm) n in
  snd r = None /\
  snd (fst r) = flat_map (fun i : nat => if Z.of_nat i mod frequency tm =? 0
                                         then [(tick t + Z.of_nat i, callback tm)] else [])
                         (seq 1 n).
Proof.
  intros Hrun Hf Ht.
  destruct (periodic_inv run (tick t) (frequency tm) (callback tm) n Hrun Hf Ht 0 t
              ltac:(lia) ltac:(lia)) as [H1 H2].
  unfold add. cbn [app].
  replace (tick t + frequency tm) with (tick t + frequency tm * (0 / frequency tm + 1))
    by (rewrite Z.div_0_l by lia; ring).
  split; [exact H1|]. rewrite H2. apply flat_map_ext. intros i.
  rewrite Z.add_0_l, Z.add_0_r. reflexivity.
Qed.

Lemma X2_witness :
  ((forall cb, (fun _ : nat => @None exn) cb = None) /\ 0 < frequency (mk_timer 5 None 3) /\
   0 <= tick t50) /\
  let r := run_ticks (fun _ => None) t50 (add t50 [] (mk_timer 5 None 3)) 7 in
  snd r = None /\
  snd (fst r) = flat_map (fun i : nat => if Z.of_nat i mod frequency (mk_timer 5 None 3) =? 0
                                         then [(tick t50 + Z.of_nat i, callback (mk_timer 5 None 3))]
                                         else [])
                         (seq 1 7).
Proof.
  split; [split; [intros _; reflexivity|split; vm_compute; reflexivity || discriminate]|].
  apply X2_periodic_timer_fires_every_f_ticks;
    [intros _; reflexivity|reflexivity|vm_compute; discriminate].
Defined.

Lemma never_due_run_ticks (run : nat -> option exn) (tm : timer) (n : nat) :
  (forall now, due now tm = false) ->
  forall t, snd (run_ticks run t [tm] n) = None /\ snd (fst (run_ticks run t [tm] n)) = [].
Proof.
  intros Hnd. induction n as [|n IH]; intros t; [split; reflexivity|].
  cbn [run_ticks]. unfold timer_tick. cbn [fire_timers]. rewrite Hnd.
  cbn [map]. destruct (IH (mk_timing (HZ t) (secs_per_tick t) (tick t + 1))) as [H1 H2].
  destruct (run_ticks run _ _ n) as [[[t2 ts2] log2] err2]. simpl in *. split; assumption.
Qed.

(** [Timer(callback, frequency=ms)] with an integer [ms] below 1000 gets a
    frequency of 0 ticks ([ms / 1000] is Python 2 integer division).  Added
    with [Timing.add] at tick [t] and alone in the set, it is called at most
    once over any number [n + 1] of ticks: never if [t = 0] (a wakeup of 0
    is false), otherwise once, at tick [t + 1]. *)
Theorem X3_subsecond_timer_fires_at_most_once (run : nat -> option exn) (t : timing)
    (hz ms : Z) (cb : nat) (n : nat) :
  HZ t = Some hz -> 0 <= ms < 1000 -> (forall cb, run cb = None) ->
  exists tm, timer_init t cb (Some ms) = Ok tm /\ frequency tm = 0 /\
    snd (run_ticks run t (add t [] tm) (S n)) = None /\
    snd (fst (run_ticks run t (add t [] tm) (S n))) =
    (if tick t =? 0 then [] else [(tick t + 1, cb)]).
Proof.
  intros Hhz Hms Hrun. unfold timer_init. rewrite Hhz.
  rewrite (Z.div_small ms 1000 Hms). eexists. split; [reflexivity|]. split; [reflexivity|].
  unfold add. cbn [app callback frequency]. rewrite Z.mul_0_l, Z.add_0_r.
  destruct (tick t =? 0) eqn:E.
  - apply Z.eqb_eq in E. rewrite E.
    apply never_due_run_ticks. intros now. reflexivity.
  - cbn [run_ticks]. unfold timer_tick. cbn [fire_timers].
    assert (Hd : due (tick (mk_timing (HZ t) (secs_per_tick t) (tick t + 1)))
                     (mk_timer cb (Some (tick t)) 0) = true).
    { unfold due. cbn. rewrite E. apply Z.leb_le. lia. }
    rewrite Hd, Hrun. cbn [fire_timers]. unfold after_call. cbn [frequency callback].
    destruct (never_due_run_ticks run (mk_timer cb None 0) n (fun _ => eq_refl)
                (mk_timing (HZ t) (secs_per_tick t) (tick t + 1))) as [H1 H2].
    destruct (run_ticks run _ _ n) as [[[t2 ts2] log2] err2]. simpl in *.
    rewrite H1, H2. split; reflexivity.
Qed.

Lemma X3_witness :
  (HZ t50 = Some 50 /\ 0 <= 500 < 1000 /\ (forall cb, (fun _ : nat => @None exn) cb = None)) /\
  exists tm, timer_init t50 9 (Some 500) = Ok tm /\ frequency tm = 0 /\
    snd (run_ticks (fun _ => None) t50 (add t50 [] tm) 4) = None /\
    snd (fst (run_ticks (fun _ => None) t50 (add t50 [] tm) 4)) =
    (if tick t50 =? 0 then [] else [(tick t50 + 1, 9%nat)]).
Proof.
  split; [split; [vm_compute; reflexivity|split; [lia|intros _; reflexivity]]|].
  apply (X3_subsecond_timer_fires_at_most_once (fun _ => None) t50 50 500 9 3);
    [vm_compute; reflexivity|lia|intros _; reflexivity].
Defined.

(** *** Switch queries *)

(** [is_active] and [is_inactive] with their default [ticks=None]: Python 2
    compares [None] below every integer, so the dwell time is never looked
    at, also for a change stamped after the current tick; they answer
    whether the stored state is 1 (resp. 0), and an unknown switch raises
    [KeyError].  With an integer [ticks] they are [is_state]. *)
Theorem X4_default_ticks_ignore_dwell (c : controller) (name : string) (t : Z) :
  is_active c name None =
    match switches c !! name with Some r => Ok (sw_state r =? 1) | None => Err KeyError end /\
  is_inactive c name None =
    match switches c !! name with Some r => Ok (sw_state r =? 0) | None => Err KeyError end /\
  is_active c name (Some t) = is_state c name 1 t /\
  is_inactive c name (Some t) = is_state c name 0 t.
Proof.
  unfold is_active, is_inactive, is_state_opt, is_state. cbn [py2_le_opt].
  destruct (switches c !! name) as [r|]; [|repeat split].
  destruct (sw_state r =? 1), (sw_state r =? 0); repeat split;
    destruct (t <=? now c - sw_time r); reflexivity.
Qed.

(** *** What the public operations leave alone *)

Lemma tick_loop_frame (c : controller) (items : list (Z * list pending)) :
  same_frame c (fst (tick_loop c items)).
Proof.
  revert c. induction items as [|[k v] rest IH]; intros c; cbn [tick_loop];
    [apply Claims.same_frame_refl|].
  destruct (k <=? now c); [|apply IH].
  destruct (Claims.call_all_frame c v) as [Hf _].
  destruct (call_all c v) as [c1 [e|]]; cbn [fst] in Hf |- *; [exact Hf|].
  destruct (bucket_del (active_timed_switches c1) k) as [a|e]; cbn [fst]; [|exact Hf].
  exact (Claims.same_frame_trans _ _ _ Hf
           (Claims.same_frame_trans _ _ _ (Claims.set_active_frame _ _) (IH _))).
Qed.

Lemma tick_loop_keeps (c : controller) (items : list (Z * list pending)) :
  switches (fst (tick_loop c items)) = switches c /\
  timing_of (fst (tick_loop c items)) = timing_of c /\
  machine_switches (fst (tick_loop c items)) = machine_switches c.
Proof.
  destruct (tick_loop_frame c items) as (H1 & H2 & _ & H4 & _). repeat split; assumption.
Qed.

Lemma advance_keeps (c : controller) :
  switches (fst (advance c)) = switches c /\ now (fst (advance c)) = now c + 1 /\
  machine_switches (fst (advance c)) = machine_switches c.
Proof.
  unfold advance, tick_hook. set (c1 := set_timing c _).
  destruct (tick_loop_keeps c1 (copy_order c1 (active_timed_switches c1))) as (H1 & H2 & H3).
  rewrite H1, H3. unfold now at 1. rewrite H2. repeat split.
Qed.

Lemma run_advances (c c' : controller) (k : nat) :
  run c (repeat Advance k) = (c', None) ->
  switches c' = switches c /\ now c' = now c + Z.of_nat k.
Proof.
  revert c. induction k as [|k IH]; intros c H; cbn [repeat run step] in H.
  - injection H as <-. split; [reflexivity|lia].
  - destruct (advance_keeps c) as (H1 & H2 & _).
    destruct (advance c) as [c1 [e|]]; [discriminate|]. simpl in H1, H2.
    destruct (IH c1 H) as [H3 H4]. rewrite H3, H4, H1, H2. split; [reflexivity|lia].
Qed.

(** A switch change followed by [k] machine ticks that raise nothing:
    [ticks_since_change] is [k], [is_state] with the stored state [s']
    ([s ^ 1] for an NC switch reported raw) holds exactly for a dwell of at
    most [k] ticks, and the clock has moved by [k]. *)
Theorem X5_dwell_counts_ticks (c c' : controller) (name : string) (dev : switch_dev)
    (s t : Z) (l : bool) (k : nat) :
  machine_switches c !! name = Some dev ->
  run c (ProcessSwitch name s l :: repeat Advance k) = (c', None) ->
  let s' := if String.eqb (sw_type dev) "NC" && negb l then Z.lxor s 1 else s in
  ticks_since_change c' name = Ok (Z.of_nat k) /\
  is_state c' name s' t = Ok (t <=? Z.of_nat k) /\
  now c' = now c + Z.of_nat k.
Proof.
  intros Hdev Hrun. cbv zeta. cbn [run step] in Hrun.
  destruct (Claims.process_switch_stores c name dev s l Hdev) as [Hsw Ht].
  destruct (process_switch c name s l) as [c1 [e|]]; [discriminate|]. simpl in Hsw, Ht.
  destruct (run_advances c1 c' k Hrun) as [Hs Hn].
  assert (Hn1 : now c1 = now c) by (unfold now; rewrite Ht; reflexivity).
  unfold ticks_since_change, is_state. rewrite Hs, Hsw, lookup_insert_eq. cbn [sw_state sw_time].
  rewrite Z.eqb_refl, Hn, Hn1. replace (now c + Z.of_nat k - now c) with (Z.of_nat k) by lia.
  split; [reflexivity|]. split; [destruct (t <=? Z.of_nat k); reflexivity|reflexivity].
Qed.

Lemma X5_witness :
  (machine_switches c0 !! "N" = Some (mk_switch_dev "NC" []) /\
   run c0 (ProcessSwitch "N" 1 false :: repeat Advance 3) =
   (fst (run c0 (ProcessSwitch "N" 1 false :: repeat Advance 3)), None)) /\
  (ticks_since_change (fst (run c0 (ProcessSwitch "N" 1 false :: repeat Advance 3))) "N"
   = Ok (Z.of_nat 3) /\
   is_state (fst (run c0 (ProcessSwitch "N" 1 false :: repeat Advance 3))) "N" 0 2
   = Ok (2 <=? Z.of_nat 3) /\
   now (fst (run c0 (ProcessSwitch "N" 1 false :: repeat Advance 3))) = now c0 + Z.of_nat 3).
Proof.
  assert (H1 : machine_switches c0 !! "N" = Some (mk_switch_dev "NC" []))
    by (vm_compute; reflexivity).
  assert (H2 : run c0 (ProcessSwitch "N" 1 false :: repeat Advance 3) =
               (fst (run c0 (ProcessSwitch "N" 1 false :: repeat Advance 3)), None))
    by (vm_compute; reflexivity).
  split; [split; assumption|].
  exact (X5_dwell_counts_ticks c0 _ "N" _ 1 2 false 3 H1 H2).
Defined.

(** *** What [process_switch] calls and posts *)







(** *** The [_tick] hook *)

Lemma filter_all_true {A} (f : A -> bool) (l : list A) :
  (forall x, In x l -> f x = true) -> List.filter f l = l.
Proof.
  induction l as [|x l IH]; intros H; simpl; [reflexivity|].
  rewrite (H x (or_introl eq_refl)), IH by (intros y Hy; exact (H y (or_intror Hy))).
  reflexivity.
Qed.

Lemma filter_filter_andb {A} (f g : A -> bool) (l : list A) :
  List.filter f (List.filter g l) = List.filter (fun x => g x && f x) l.
Proof.
  induction l as [|x l IH]; simpl; [reflexivity|].
  destruct (g x); simpl; [destruct (f x); simpl|]; rewrite IH; reflexivity.
Qed.

(** [del] of a present key removes its one entry. *)
Lemma bucket_del_filter (a : list (Z * list pending)) (k : Z) :
  List.NoDup (map fst a) -> In k (map fst a) ->
  bucket_del a k = Ok (List.filter (fun kv => negb (fst kv =? k)) a).
Proof.
  induction a as [|[k0 b] rest IH]; intros Hnd Hin; [destruct Hin|].
  inversion Hnd as [|? ? Hnin Hndr]; subst. cbn [bucket_del List.filter fst].
  destruct (k0 =? k) eqn:E; cbn [negb].
  - apply Z.eqb_eq in E. subst k0. symmetry. f_equal. apply filter_all_true.
    intros [k' b'] Hkb. apply negb_true_iff, Z.eqb_neq. intros Heq. apply Hnin.
    cbn [fst] in Heq. rewrite <- Heq. exact (in_map fst _ _ Hkb).
  - destruct Hin as [Hin|Hin]; [apply Z.eqb_neq in E; cbn [fst] in Hin; congruence|].
    rewrite (IH Hndr Hin). reflexivity.
Qed.

Lemma call_all_fired (c : controller) (v : list pending) :
  snd (call_all c v) = None ->
  fired (fst (call_all c v)) = fired c ++ map (fun p => (now c, p_callback p)) v.
Proof.
  revert c. induction v as [|p v IH]; intros c H; cbn [call_all] in H |- *;
    [rewrite app_nil_r; reflexivity|].
  unfold call in H |- *. destruct (raises c (fired (log_call c (p_callback p))));
    [discriminate|].
  rewrite (IH _ H). cbn [fired log_call map]. rewrite <- app_assoc. reflexivity.
Qed.

(** The loop of [_tick] over the copy [items], when the callbacks of the due
    buckets return: the due buckets of [items] are called in order and
    deleted, the others kept in place. *)
Lemma tick_loop_spec (c : controller) (items : list (Z * list pending)) :
  List.NoDup (map fst (active_timed_switches c)) -> List.NoDup (map fst items) ->
  (forall kv, In kv items -> fst kv <= now c -> In kv (active_timed_switches c)) ->
  (forall log kv p, In kv items -> fst kv <= now c -> In p (snd kv) ->
     raises c (log ++ [(now c, p_callback p)]) = None) ->
  let r := tick_loop c items in
  snd r = None /\
  active_timed_switches (fst r) =
    List.filter (fun kv => negb ((fst kv <=? now c) &&
                                 existsb (fun kv' => fst kv' =? fst kv) items))
      (active_timed_switches c) /\
  fired (fst r) = fired c ++
    flat_map (fun kv => if fst kv <=? now c
                        then map (fun p => (now c, p_callback p)) (snd kv) else []) items /\
  timing_of (fst r) = timing_of c.
Proof.
  revert c. induction items as [|[k v] rest IH]; intros c Hnd Hndi Hin Hret; cbn [tick_loop].
  - cbn [fst snd existsb flat_map]. split; [reflexivity|].
    split; [symmetry; apply filter_all_true; intros x _; rewrite andb_false_r; reflexivity|].
    rewrite app_nil_r. split; reflexivity.
  - cbn [map fst] in Hndi. inversion Hndi as [|? ? Hnin Hndr]; subst.
    destruct (k <=? now c) eqn:Hk.
    + assert (Hkin : In (k, v) (active_timed_switches c))
        by (apply Hin; [left; reflexivity|apply Z.leb_le; exact Hk]).
      pose proof (Claims.call_all_return c v (fun log p Hp =>
                    Hret log (k, v) p (or_introl eq_refl) (proj1 (Z.leb_le _ _) Hk) Hp)) as Hr0.
      pose proof (call_all_fired c v Hr0) as Hf0.
      destruct (Claims.call_all_frame c v) as [Hfr Ha1].
      destruct (call_all c v) as [c1 err]. cbn [fst snd] in Hr0, Hf0, Hfr, Ha1. subst err.
      destruct Hfr as (Ht1 & _ & _ & _ & _ & Hx1 & _).
      assert (Hn1 : now c1 = now c) by (unfold now; rewrite Ht1; reflexivity).
      assert (Hkm : In k (map fst (active_timed_switches c))) by exact (in_map fst _ _ Hkin).
      pose proof (bucket_del_filter _ k Hnd Hkm) as Hd.
      rewrite Ha1, Hd.
      set (a' := List.filter (fun kv => negb (fst kv =? k)) (active_timed_switches c)).
      destruct (Claims.bucket_del_ok _ a' _ Hd Hnd) as [Hnd' _].
      destruct (IH (set_active c1 a')) as (R1 & R2 & R3 & R4).
      * exact Hnd'.
      * exact Hndr.
      * change (now (set_active c1 a')) with (now c1). rewrite Hn1.
        intros kv Hkv Hle. cbn [active_timed_switches set_active]. subst a'.
        apply filter_In. split; [apply Hin; [right; exact Hkv|exact Hle]|].
        apply negb_true_iff, Z.eqb_neq. intros Heq. apply Hnin.
        rewrite <- Heq. exact (in_map fst _ _ Hkv).
      * change (now (set_active c1 a')) with (now c1). rewrite Hn1.
        change (raises (set_active c1 a')) with (raises c1). rewrite Hx1.
        intros log kv p Hkv Hle Hp. exact (Hret log kv p (or_intror Hkv) Hle Hp).
      * change (now (set_active c1 a')) with (now c1) in R2, R3. rewrite Hn1 in R2, R3.
        split; [exact R1|]. split; [|split].
        -- rewrite R2. cbn [active_timed_switches set_active]. subst a'.
           rewrite filter_filter_andb. apply List.filter_ext_in. intros kv _.
           cbn [existsb fst]. destruct (fst kv =? k) eqn:E.
           ++ apply Z.eqb_eq in E. rewrite E, Z.eqb_refl, Hk. reflexivity.
           ++ assert (E' : (k =? fst kv) = false) by (rewrite Z.eqb_sym; exact E).
              rewrite E'. reflexivity.
        -- rewrite R3. cbn [flat_map fst snd]. rewrite Hk.
           change (fired (set_active c1 a')) with (fired c1). rewrite Hf0, app_assoc.
           reflexivity.
        -- rewrite R4. exact Ht1.
    + destruct (IH c) as (R1 & R2 & R3 & R4).
      * exact Hnd.
      * exact Hndr.
      * intros kv Hkv Hle. exact (Hin kv (or_intror Hkv) Hle).
      * intros log kv p Hkv Hle Hp. exact (Hret log kv p (or_intror Hkv) Hle Hp).
      * split; [exact R1|]. split; [|split; [|exact R4]].
        -- rewrite R2. apply List.filter_ext_in. intros kv _. cbn [existsb fst].
           destruct (fst kv =? k) eqn:E.
           ++ apply Z.eqb_eq in E. rewrite E, Hk. reflexivity.
           ++ assert (E' : (k =? fst kv) = false) by (rewrite Z.eqb_sym; exact E).
              rewrite E'. reflexivity.
        -- rewrite R3. cbn [flat_map fst snd]. rewrite Hk. reflexivity.
Qed.

(** One machine tick ([Timing.tick += 1], then [_tick]) on a dictionary of
    pending fires with distinct keys, whose copy [_tick] iterates over each
    entry once, and whose fires due at the new tick [n] have callbacks that
    return normally: it does not raise, the callbacks of every bucket whose
    key is at or before [n] are called at [n], bucket by bucket in the
    copy's iteration order, those buckets are deleted and the later ones
    kept in order. *)
Theorem X8_advance_fires_due_buckets (c : controller) :
  List.NoDup (map fst (active_timed_switches c)) ->
  Permutation (copy_order c (active_timed_switches c)) (active_timed_switches c) ->
  pending_calls_return c ->
  let n := now c + 1 in
  let r := advance c in
  snd r = None /\ now (fst r) = n /\
  active_timed_switches (fst r) = List.filter (fun kv => n <? fst kv) (active_timed_switches c) /\
  fired (fst r) = fired c ++
    flat_map (fun kv => if fst kv <=? n then map (fun p => (n, p_callback p)) (snd kv) else [])
      (copy_order c (active_timed_switches c)).
Proof.
  intros Hnd Hp Hret. cbv zeta. unfold advance, tick_hook.
  set (c1 := set_timing c _).
  change (copy_order c1 (active_timed_switches c1))
    with (copy_order c (active_timed_switches c)).
  destruct (tick_loop_spec c1 (copy_order c (active_timed_switches c))) as (R1 & R2 & R3 & R4).
  - exact Hnd.
  - exact (Permutation_NoDup (Permutation_sym (Permutation_map fst Hp)) Hnd).
  - intros kv Hkv _. exact (Permutation_in _ Hp Hkv).
  - intros log [k v] p Hkv Hle Hv. exact (Hret log k v p (Permutation_in _ Hp Hkv) Hle Hv).
  - rewrite R1. split; [reflexivity|]. split; [unfold now at 1; rewrite R4; reflexivity|].
    split; [|exact R3].
    rewrite R2. apply List.filter_ext_in. intros kv Hkv.
    assert (Hex : existsb (fun kv' => fst kv' =? fst kv)
                    (copy_order c (active_timed_switches c)) = true).
    { apply existsb_exists. exists kv. split; [exact (Permutation_in _ (Permutation_sym Hp) Hkv)|].
      apply Z.eqb_refl. }
    cbn [copy_order set_timing] in Hex. rewrite Hex, andb_true_r.
    change (now c1) with (now c + 1).
    destruct (Z.leb_spec (fst kv) (now c + 1)), (Z.ltb_spec (now c + 1) (fst kv));
      simpl; (reflexivity || lia).
Qed.

Lemma X8_witness :
  let c := mk_controller t50 machine3 ∅
             [(1, [mk_pending "A-1" 4; mk_pending "A-1" 5]); (3, [mk_pending "B-1" 6]);
              (0, [mk_pending "B-1" 7])] ∅ [] [] (callback_raises 9) (fun a => a) (@rev _) in
  (List.NoDup (map fst (active_timed_switches c)) /\
   Permutation (copy_order c (active_timed_switches c)) (active_timed_switches c) /\
   pending_calls_return c) /\
  (let n := now c + 1 in
   let r := advance c in
   snd r = None /\ now (fst r) = n /\
   active_timed_switches (fst r) = List.filter (fun kv => n <? fst kv) (active_timed_switches c) /\
   fired (fst r) = fired c ++
     flat_map (fun kv => if fst kv <=? n then map (fun p => (n, p_callback p)) (snd kv) else [])
       (copy_order c (active_timed_switches c))).
Proof.
  intros c.
  assert (H1 : List.NoDup (map fst (active_timed_switches c)))
    by (vm_compute; repeat constructor; simpl; lia).
  assert (H2 : Permutation (copy_order c (active_timed_switches c)) (active_timed_switches c))
    by exact (Permutation_sym (Permutation_rev _)).
  assert (H3 : pending_calls_return c).
  { intros log k v p Hin _ Hp. unfold c in Hin |- *. cbn [raises active_timed_switches] in Hin |- *.
    unfold callback_raises. rewrite rev_app_distr. cbn [rev app].
    destruct Hin as [H|[H|[H|[]]]]; injection H as <- <-;
      repeat destruct Hp as [<-|Hp]; try destruct Hp; reflexivity. }
  split; [split; [exact H1|split; [exact H2|exact H3]]|].
  exact (X8_advance_fires_due_buckets c H1 H2 H3).
Defined.

(** *** [initialize_hw_states] *)

Lemma post_switch_events_machine (c : controller) (dev : switch_dev) (state : Z) :
  machine_switches (post_switch_events c dev state) = machine_switches c.
Proof.
  unfold post_switch_events. destruct (state =? 1); [|reflexivity].
  generalize c. induction (sw_tags dev) as [|tag tags IH]; intros c'; simpl;
    [reflexivity|]. rewrite IH. reflexivity.
Qed.

Lemma process_switch_machine (c : controller) (name : string) (s : Z) (l : bool) :
  machine_switches (fst (process_switch c name s l)) = machine_switches c.
Proof.
  destruct (machine_switches c !! name) as [dev|] eqn:Hdev;
    [|unfold process_switch; rewrite Hdev; reflexivity].
  set (s' := if String.eqb (sw_type dev) "NC" && negb l then Z.lxor s 1 else s).
  destruct (run_handlers (set_state c name s') (switch_key name s')) as [c2 err] eqn:Hrh.
  pose proof (Claims.run_handlers_frame (set_state c name s') (switch_key name s')) as Hf.
  rewrite Hrh in Hf. destruct Hf as (_ & M2 & _). cbn [fst] in M2.
  rewrite (Claims.process_switch_split c name dev s l c2 err Hdev Hrh).
  destruct err as [e|]; [exact M2|].
  destruct (sweep _ _ _) as [a [e|]]; cbn [fst]; [exact M2|].
  rewrite post_switch_events_machine. exact M2.
Qed.

(** [initialize_hw_states] over hardware states with distinct switch names,
    when it returns normally: the clock has not moved, every listed switch
    is known to the machine and is stored with its hardware state turned
    logical (inverted for an NC switch) and the current tick as its change
    time, and every other switch record is left as it was. *)
Theorem X9_initialize_hw_states_syncs (c c' : controller) (hw : list (string * Z)) :
  initialize_hw_states c hw = (c', None) -> List.NoDup (map fst hw) ->
  now c' = now c /\
  (forall name state, In (name, state) hw ->
     exists dev, machine_switches c !! name = Some dev /\
       switches c' !! name =
       Some (mk_sw_record (if String.eqb (sw_type dev) "NC" then Z.lxor state 1 else state)
               (now c))) /\
  (forall name, ~ In name (map fst hw) -> switches c' !! name = switches c !! name).
Proof.
  revert c. induction hw as [|[n s] rest IH]; intros c Hrun Hnd; cbn [initialize_hw_states] in Hrun.
  - injection Hrun as <-. split; [reflexivity|]. split; [intros ? ? []|reflexivity].
  - destruct (machine_switches c !! n) as [dev|] eqn:Hdev;
      [|unfold process_switch in Hrun; rewrite Hdev in Hrun; discriminate].
    pose proof (process_switch_machine c n s false) as Hm.
    destruct (Claims.process_switch_stores c n dev s false Hdev) as [Hsw Ht].
    destruct (process_switch c n s false) as [c1 [e|]]; [discriminate|]. simpl in Hm, Hsw, Ht.
    rewrite andb_true_r in Hsw.
    inversion Hnd as [|? ? Hnin Hndr]; subst.
    assert (Hn1 : now c1 = now c) by (unfold now; rewrite Ht; reflexivity).
    destruct (IH c1 Hrun Hndr) as (R1 & R2 & R3).
    split; [rewrite R1; exact Hn1|]. split.
    + intros name state [Heq|Hin].
      * injection Heq as <- <-. exists dev. split; [exact Hdev|].
        rewrite (R3 _ Hnin), Hsw, lookup_insert_eq. reflexivity.
      * destruct (R2 name state Hin) as (dev' & H1 & H2). exists dev'.
        rewrite Hm in H1. rewrite Hn1 in H2. split; assumption.
    + intros name Hnot. cbn [map fst] in Hnot.
      rewrite (R3 name (fun H => Hnot (or_intror H))), Hsw, lookup_insert_ne
        by (intros ->; apply Hnot; left; reflexivity).
      reflexivity.
Qed.

Lemma X9_witness :
  let hw := [("A", 1); ("N", 1)] in
  (initialize_hw_states c0 hw = (fst (initialize_hw_states c0 hw), None) /\
   List.NoDup (map fst hw)) /\
  (now (fst (initialize_hw_states c0 hw)) = now c0 /\
   (forall name state, In (name, state) hw ->
      exists dev, machine_switches c0 !! name = Some dev /\
        switches (fst (initialize_hw_states c0 hw)) !! name =
        Some (mk_sw_record (if String.eqb (sw_type dev) "NC" then Z.lxor state 1 else state)
                (now c0))) /\
   (forall name, ~ In name (map fst hw) ->
      switches (fst (initialize_hw_states c0 hw)) !! name = switches c0 !! name)).
Proof.
  intros hw.
  assert (H1 : initialize_hw_states c0 hw = (fst (initialize_hw_states c0 hw), None))
    by (vm_compute; reflexivity).
  assert (H2 : List.NoDup (map fst hw))
    by (constructor; [intros [H|[]]; discriminate|constructor; [intros []|constructor]]).
  split; [split; assumption|]. exact (X9_initialize_hw_states_syncs c0 _ hw H1 H2).
Defined.

(** *** Looking a switch up by number *)

(** With [num] given, [process_switch] takes the name of the LAST switch of
    [machine.switches] (in iteration order) whose number equals [num], and
    ignores [obj]; when no switch has that number the [name] argument (by
    default [None]) is kept.  Without [num], a given [obj] supplies the name. *)
Theorem X10_resolve_name_last_match (sws : list (string * Z)) (name : option string)
    (k : Z) (obj : option string) :
  resolve_name sws name (Some k) obj =
  match last (List.filter (fun p => snd p =? k) sws) with
  | Some (n, _) => Some n
  | None => name
  end /\
  resolve_name sws name None obj = match obj with Some o => Some o | None => name end.
Proof.
  split; [|reflexivity]. unfold resolve_name. revert name.
  induction sws as [|[n num] rest IH]; intros name; [reflexivity|]. cbn [fold_left].
  rewrite IH. cbn [List.filter snd]. destruct (num =? k); [|reflexivity].
  rewrite last_cons. destruct (last _) as [[n' x]|]; reflexivity.
Qed.

(** *** Handler registration *)

Lemma sfdiv_not_neg (a b : spec_float) :
  SFltb a (S754_zero false) = false -> SFltb (S754_zero false) b = true ->
  SFltb (SFdiv prec emax a b) (S754_zero false) = false.
Proof.
  destruct a as [[]|[]| |[] ma ea]; destruct b as [[]|[]| |[] mb eb]; intros Ha Hb;
    cbn in Ha, Hb; try discriminate Ha; try discriminate Hb; try reflexivity.
  unfold SFdiv. destruct (SFdiv_core_binary _ _ _ _) as [[mz ez] lz]. cbn [xorb].
  pose proof (Claims.round_aux_nonneg mz ez lz) as Hr. revert Hr.
  generalize (binary_round_aux prec emax false mz ez lz).
  intros f Hf. destruct f as [[]|[]| |[] m e]; try discriminate; reflexivity.
Qed.

Lemma prim2sf_zero : Prim2SF 0 = S754_zero false.
Proof. reflexivity. Qed.

Lemma div_not_neg (x y : float) :
  (x <? 0)%float = false -> (0 <? y)%float = true -> (x / y <? 0)%float = false.
Proof.
  rewrite !ltb_spec, div_spec, prim2sf_zero. apply sfdiv_not_neg.
Qed.

Lemma pos_not_zero (y : float) : (0 <? y)%float = true -> (y =? 0)%float = false.
Proof.
  rewrite ltb_spec, FloatAxioms.eqb_spec, prim2sf_zero.
  destruct (Prim2SF y) as [[]|[]| |[] m e]; cbn; congruence.
Qed.

Lemma ceil_not_neg (f : float) (t : Z) : (f <? 0)%float = false -> py_int_ceil f = Ok t -> 0 <= t.
Proof.
  unfold py_int_ceil. rewrite ltb_spec, prim2sf_zero.
  destruct (Prim2SF f) as [[]|[]| |[] m e]; intros Hf Ht; cbn in Hf;
    try discriminate Hf; try discriminate Ht; try (injection Ht as <-; lia).
  destruct (0 <=? e) eqn:E; injection Ht as <-.
  - apply Z.leb_le in E. pose proof (Z.pow_nonneg 2 e). nia.
  - apply Z.leb_gt in E. pose proof (Z.pow_pos_nonneg 2 (- e)).
    apply Z.div_pos; lia.
Qed.

(** [add_switch_handler] with a non-negative [ms] (not below 0: [+0], [-0], a
    positive number, [inf] or NaN) on a machine whose [secs_per_tick] is
    positive never registers a negative tick count: whenever
    [int(math.ceil(ms / secs_per_tick / 1000))] returns, it is at least 0,
    and the entry is appended to the list of its key, the other keys and the
    pending fires left as they are. *)
Theorem X11_nonneg_ms_nonneg_ticks (c : controller) (spt ms : float) (name : string)
    (cb : nat) (state : Z) :
  secs_per_tick (timing_of c) = Some spt -> (0 <? spt)%float = true -> (ms <? 0)%float = false ->
  op_nonneg c (AddHandler name cb state ms) /\
  (forall c', add_switch_handler c name cb state ms = Ok c' ->
   exists t, 0 <= t /\
     registered_switches c' =
     <[switch_key name state :=
         default [] (registered_switches c !! switch_key name state) ++ [mk_entry t cb]]>
       (registered_switches c) /\
     active_timed_switches c' = active_timed_switches c /\ switches c' = switches c).
Proof.
  intros Hspt Hpos Hms.
  assert (Ht : forall t, handler_ticks c ms = Ok t -> 0 <= t).
  { intros t. unfold handler_ticks, spt_of. rewrite Hspt. cbn [rbind]. unfold py_div.
    rewrite (pos_not_zero spt Hpos). cbn [rbind].
    assert (H1000 : (1000 =? 0)%float = false) by reflexivity. rewrite H1000. cbn [rbind].
    apply ceil_not_neg. apply div_not_neg; [apply div_not_neg; assumption|reflexivity]. }
  split; [exact Ht|].
  intros c' Hadd. unfold add_switch_handler in Hadd.
  destruct (handler_ticks c ms) as [t|e] eqn:E; cbn [rbind] in Hadd; [|discriminate].
  injection Hadd as <-. exists t. split; [exact (Ht t eq_refl)|]. repeat split.
Qed.

Lemma X11_witness :
  (secs_per_tick (timing_of c0) = Some (1 / 50)%float /\ (0 <? 1 / 50)%float = true /\
   (100 <? 0)%float = false) /\
  (op_nonneg c0 (AddHandler "A" 3 1 100) /\
   (forall c', add_switch_handler c0 "A" 3 1 100 = Ok c' ->
    exists t, 0 <= t /\
      registered_switches c' =
      <[switch_key "A" 1 :=
          default [] (registered_switches c0 !! switch_key "A" 1) ++ [mk_entry t 3]]>
        (registered_switches c0) /\
      active_timed_switches c' = active_timed_switches c0 /\ switches c' = switches c0)).
Proof.
  assert (H1 : secs_per_tick (timing_of c0) = Some (1 / 50)%float) by (vm_compute; reflexivity).
  assert (H2 : (0 <? 1 / 50)%float = true) by (vm_compute; reflexivity).
  assert (H3 : (100 <? 0)%float = false) by (vm_compute; reflexivity).
  split; [split; [exact H1|split; assumption]|].
  exact (X11_nonneg_ms_nonneg_ticks c0 _ 100 "A" 3 1 H1 H2 H3).
Defined.

(** *** The accelerometer *)

(** The first sample (no history yet) is stored both as the value and as
    the history, unsmoothed, and hit detection sees a zero delta: a hit
    event is posted exactly for the hit limits below 0, in their order.  The
    level events and the exception are those of [_handle_level]. *)
Theorem X12_first_sample_zero_delta (libm : float -> float) (cfg : config) (st : accel)
    (x y z : float) :
  history st = None ->
  update_acceleration libm cfg st x y z =
  (mk_accel (Some (x, y, z)) (Some (x, y, z)),
   flat_map (fun '(m, ev) => if (m <? 0)%float then [Hit ev] else []) (hit_limits cfg) ++
     match handle_level libm cfg x y z with Ok l => l | Err _ => [] end,
   match handle_level libm cfg x y z with Ok _ => None | Err e => Some e end).
Proof.
  intros Hh. unfold update_acceleration. rewrite Hh. cbn [filter_step].
  assert (H0 : calculate_vector_length 0 0 0 = Ok 0%float) by (vm_compute; reflexivity).
  unfold handle_hits. rewrite H0. cbn [rbind].
  destruct (handle_level libm cfg x y z); [reflexivity|rewrite app_nil_r; reflexivity].
Qed.

Lemma X12_witness :
  let cfg := mk_config 0 0 1 [] [(-1, "neg"); (0.5, "big")]%float None in
  history Accelerometer.initial = None /\
  update_acceleration (fun f => f) cfg Accelerometer.initial 0 0 1 =
  (mk_accel (Some (0%float, 0%float, 1%float)) (Some (0%float, 0%float, 1%float)),
   flat_map (fun '(m, ev) => if (m <? 0)%float then [Hit ev] else []) (hit_limits cfg) ++
     match handle_level (fun f => f) cfg 0 0 1 with Ok l => l | Err _ => [] end,
   match handle_level (fun f => f) cfg 0 0 1 with Ok _ => None | Err e => Some e end).
Proof.
  intros cfg. split; [reflexivity|]. apply X12_first_sample_zero_delta. reflexivity.
Defined.

Lemma zero_times_finite (l : float) : is_finite l = true -> (0 * l =? 0)%float = true.
Proof.
  unfold is_finite, is_nan, is_infinity.
  rewrite !FloatAxioms.eqb_spec, abs_spec, mul_spec.
  destruct (Prim2SF l) as [[]|[]| |[] m e]; vm_compute; congruence.
Qed.

(** A level reference along the x axis ([level_y = level_z = 0]) or along
    the y axis ([level_x = level_z = 0]) makes [update_acceleration] raise
    for every sample whose length in the other plane is finite: the per-axis
    deviation divides by the zero length of the reference's projection (if
    the total deviation has not raised before).  So no level event is ever
    posted with such a reference. *)
Theorem X13_axis_reference_always_raises (libm : float -> float) (cfg : config) (st : accel)
    (x y z : float) :
  (level_y cfg = 0%float /\ level_z cfg = 0%float /\
   is_finite (sqrt (0 * 0 + y * y + z * z)) = true) \/
  (level_x cfg = 0%float /\ level_z cfg = 0%float /\
   is_finite (sqrt (x * x + 0 * 0 + z * z)) = true) ->
  exists e, handle_level libm cfg x y z = Err e /\
    exists hits, update_acceleration libm cfg st x y z =
      (mk_accel (Some (x, y, z)) (Some (fst (filter_step (history st) x y z))), hits, Some e).
Proof.
  intros Hcase.
  assert (Hl0 : sqrt (0 * 0 + 0 * 0 + 0 * 0) = 0%float) by (vm_compute; reflexivity).
  assert (He : exists e, handle_level libm cfg x y z = Err e).
  { unfold handle_level.
    destruct (calculate_angle libm (level_x cfg) (level_y cfg) (level_z cfg) x y z)
      as [dt|e]; cbn [rbind]; [|eexists; reflexivity].
    destruct Hcase as [(Hy & Hz & Hf)|(Hx & Hz & Hf)].
    - unfold calculate_angle at 1. rewrite Hy, Hz, !Claims.calculate_vector_length_ok. cbn [rbind].
      unfold py_div. rewrite Hl0, (zero_times_finite _ Hf). eexists; reflexivity.
    - destruct (calculate_angle libm 0 (level_y cfg) (level_z cfg) 0 y z) as [dx|e];
        cbn [rbind]; [|eexists; reflexivity].
      unfold calculate_angle. rewrite Hx, Hz, !Claims.calculate_vector_length_ok. cbn [rbind].
      unfold py_div. rewrite Hl0, (zero_times_finite _ Hf). eexists; reflexivity. }
  destruct He as [e He]. exists e. split; [exact He|]. exact (Claims.update_level_error _ _ _ _ _ _ _ He).
Qed.

Lemma X13_witness :
  let cfg := mk_config 1 0 0 [(5, "tilt")]%float [] None in
  ((level_y cfg = 0%float /\ level_z cfg = 0%float /\
    is_finite (sqrt (0 * 0 + 2 * 2 + 3 * 3)) = true) \/
   (level_x cfg = 0%float /\ level_z cfg = 0%float /\
    is_finite (sqrt (1 * 1 + 0 * 0 + 3 * 3)) = true)) /\
  exists e, handle_level (fun f => f) cfg 1 2 3 = Err e /\
    exists hits, update_acceleration (fun f => f) cfg Accelerometer.initial 1 2 3 =
      (mk_accel (Some (1%float, 2%float, 3%float))
         (Some (fst (filter_step (history Accelerometer.initial) 1 2 3))), hits, Some e).
Proof.
  intros cfg.
  assert (H : (level_y cfg = 0%float /\ level_z cfg = 0%float /\
               is_finite (sqrt (0 * 0 + 2 * 2 + 3 * 3)) = true) \/
              (level_x cfg = 0%float /\ level_z cfg = 0%float /\
               is_finite (sqrt (1 * 1 + 0 * 0 + 3 * 3)) = true))
    by (left; split; [reflexivity|split; [reflexivity|vm_compute; reflexivity]]).
  split; [exact H|]. exact (X13_axis_reference_always_raises (fun f => f) cfg _ 1 2 3 H).
Defined.

(** *** [readuntil] *)

Lemma test_sep_ends (sep : list Byte.byte) (min : Z) (buffer : list Byte.byte) (ch : Byte.byte) :
  (bool_decide ([ch] = sep) && (min <? Z.of_nat (length (buffer ++ [ch])))) = true <->
  sep_ends sep min (buffer ++ [ch]).
Proof.
  split.
  - intros H. apply andb_prop in H as [H1 H2]. apply bool_decide_eq_true in H1.
    apply Z.ltb_lt in H2. exists buffer, ch. auto.
  - intros (pre & ch' & Heq & Hs & Hl). apply List.app_inj_tail in Heq as [_ <-].
    apply andb_true_intro. split; [apply bool_decide_eq_true; exact Hs|apply Z.ltb_lt; exact Hl].
Qed.

Lemma sep_ends_nil (sep : list Byte.byte) (min : Z) : ~ sep_ends sep min [].
Proof. intros (pre & ch & Heq & _). destruct pre; discriminate. Qed.

Lemma readuntil_loop_ok (sep : list Byte.byte) (min : Z) (stream : list Byte.byte) :
  forall buffer buf rest, readuntil_loop sep min buffer stream = inl (buf, rest) ->
  exists p, buf = buffer ++ p /\ stream = p ++ rest /\ sep_ends sep min buf /\
    forall p' q', stream = p' ++ q' -> p' <> [] -> (length p' < length p)%nat ->
      ~ sep_ends sep min (buffer ++ p').
Proof.
  induction stream as [|ch s IH]; intros buffer buf rest H; cbn [readuntil_loop] in H;
    [discriminate|].
  destruct (bool_decide ([ch] = sep) && (min <? Z.of_nat (length (buffer ++ [ch])))) eqn:T.
  - injection H as <- <-. exists [ch]. split; [reflexivity|]. split; [reflexivity|].
    split; [apply test_sep_ends; exact T|].
    intros p' q' _ Hne Hlen. destruct p'; [contradiction|simpl in Hlen; lia].
  - destruct (IH _ _ _ H) as (p & Hb & Hs & Hq & Hmin). exists (ch :: p).
    rewrite <- app_assoc in Hb. split; [exact Hb|]. split; [rewrite Hs; reflexivity|].
    split; [exact Hq|].
    intros p' q' Heq Hne Hlen. destruct p' as [|ch' p'']; [contradiction|].
    injection Heq as <- Heq. destruct p'' as [|b p3].
    + intros Hse. apply test_sep_ends in Hse. congruence.
    + replace (buffer ++ ch :: b :: p3) with ((buffer ++ [ch]) ++ b :: p3)
        by (rewrite <- app_assoc; reflexivity).
      apply (Hmin (b :: p3) q' Heq); [discriminate|simpl in *; lia].
Qed.

Lemma readuntil_loop_err (sep : list Byte.byte) (min : Z) (stream : list Byte.byte) :
  forall buffer e, readuntil_loop sep min buffer stream = inr e ->
  e = IncompleteReadError /\
  forall p' q', stream = p' ++ q' -> p' <> [] -> ~ sep_ends sep min (buffer ++ p').
Proof.
  induction stream as [|ch s IH]; intros buffer e H; cbn [readuntil_loop] in H.
  - injection H as <-. split; [reflexivity|]. intros p' q' Heq Hne.
    destruct p'; [contradiction|discriminate].
  - destruct (bool_decide ([ch] = sep) && (min <? Z.of_nat (length (buffer ++ [ch])))) eqn:T;
      [discriminate|].
    destruct (IH _ _ H) as [He Hno]. split; [exact He|].
    intros p' q' Heq Hne. destruct p' as [|ch' p'']; [contradiction|].
    injection Heq as <- Heq. destruct p'' as [|b p3].
    + intros Hse. apply test_sep_ends in Hse. congruence.
    + replace (buffer ++ ch :: b :: p3) with ((buffer ++ [ch]) ++ b :: p3)
        by (rewrite <- app_assoc; reflexivity).
      apply (Hno (b :: p3) q' Heq). discriminate.
Qed.

(** [readuntil(separator, min_chars)] returns the SHORTEST prefix of what
    the reader delivers that ends with a byte equal to the separator and is
    longer than [min_chars]; the bytes after it stay in the reader.  When no
    prefix qualifies it raises [IncompleteReadError] at the end of the
    stream, the bytes read being lost. *)
Theorem X14_readuntil_shortest_prefix (sep : list Byte.byte) (min : Z) (stream : list Byte.byte) :
  (forall buf rest, readuntil sep min stream = inl (buf, rest) ->
     stream = buf ++ rest /\ sep_ends sep min buf /\
     forall p q, stream = p ++ q -> (length p < length buf)%nat -> ~ sep_ends sep min p) /\
  (forall e, readuntil sep min stream = inr e ->
     e = IncompleteReadError /\ forall p q, stream = p ++ q -> ~ sep_ends sep min p).
Proof.
  split.
  - intros buf rest H. destruct (readuntil_loop_ok sep min stream [] buf rest H)
      as (p & -> & Hs & Hq & Hmin). split; [exact Hs|]. split; [exact Hq|].
    intros p0 q Heq Hlen. destruct p0 as [|b p0]; [apply sep_ends_nil|].
    exact (Hmin (b :: p0) q Heq ltac:(discriminate) Hlen).
  - intros e H. destruct (readuntil_loop_err sep min stream [] e H) as [He Hno].
    split; [exact He|]. intros p0 q Heq. destruct p0 as [|b p0]; [apply sep_ends_nil|].
    exact (Hno (b :: p0) q Heq ltac:(discriminate)).
Qed.

Lemma X14_witness :
  let sep := [Byte.x0a] in
  let stream := [Byte.x41; Byte.x0a; Byte.x42; Byte.x0a; Byte.x43] in
  readuntil sep 1 stream = inl ([Byte.x41; Byte.x0a], [Byte.x42; Byte.x0a; Byte.x43]) /\
  (stream = [Byte.x41; Byte.x0a] ++ [Byte.x42; Byte.x0a; Byte.x43] /\
   sep_ends sep 1 [Byte.x41; Byte.x0a] /\
   forall p q, stream = p ++ q -> (length p < length [Byte.x41; Byte.x0a])%nat ->
     ~ sep_ends sep 1 p).
Proof.
  intros sep stream.
  assert (H : readuntil sep 1 stream = inl ([Byte.x41; Byte.x0a], [Byte.x42; Byte.x0a; Byte.x43]))
    by (vm_compute; reflexivity).
  split; [exact H|]. exact (proj1 (X14_readuntil_shortest_prefix sep 1 stream) _ _ H).
Defined.

(** A separator that is not exactly one byte (for instance [b'\r\n']) never
    matches the single byte read at each step: [readuntil] then reads the
    whole stream and raises [IncompleteReadError]. *)
Theorem X15_multibyte_separator_never_matches (sep : list Byte.byte) (min : Z)
    (stream : list Byte.byte) :
  length sep <> 1%nat -> readuntil sep min stream = inr IncompleteReadError.
Proof.
  intros Hlen. unfold readuntil. generalize (@nil Byte.byte).
  induction stream as [|ch s IH]; intros buffer; cbn [readuntil_loop]; [reflexivity|].
  rewrite bool_decide_eq_false_2 by (intros H; apply Hlen; rewrite <- H; reflexivity).
  apply IH.
Qed.

Lemma X15_witness :
  length [Byte.x0d; Byte.x0a] <> 1%nat /\
  readuntil [Byte.x0d; Byte.x0a] 0 [Byte.x41; Byte.x0d; Byte.x0a] = inr IncompleteReadError.
Proof.
  assert (H : length [Byte.x0d; Byte.x0a] <> 1%nat) by discriminate.
  split; [exact H|]. exact (X15_multibyte_separator_never_matches _ 0 _ H).
Defined.

(** *** [_socket_reader] *)

Lemma parsed_cons (m : list Byte.byte) (acts : list reader_action) :
  parsed (ParseMsg m :: acts) = m :: parsed acts.
Proof. reflexivity. Qed.

(** What the reader task does with the outcomes of its reads: it hands the
    payloads to [_parse_msg] one by one, in order, never an empty one, and
    then calls [machine.stop()] once, as its last action, exactly when it
    returns (an empty read or a read error).  A cancellation or an exception
    of [_parse_msg] ends the task without stopping the machine; an
    exception other than [CancelledError] comes from parsing the last
    payload handed over.  While it is still waiting, every payload so far
    has been parsed. *)
Theorem X16_socket_reader_actions (parse : list Byte.byte -> option serial_exn)
    (reads : list read_outcome) :
  let payloads := flat_map (fun o => match o with Data d => [d] | _ => [] end) reads in
  let r := socket_reader parse reads in
  fst r = map ParseMsg (parsed (fst r)) ++
          match snd r with Returned => [MachineStop] | _ => [] end /\
  (forall m, In m (parsed (fst r)) -> m <> []) /\
  parsed (fst r) `prefix_of` payloads /\
  (forall e, snd r = Failed e ->
     e = CancelledError \/ exists m, last (parsed (fst r)) = Some m /\ parse m = Some e) /\
  (snd r = Waiting -> parsed (fst r) = payloads).
Proof.
  cbv zeta. induction reads as [|o reads IH]; cbn [socket_reader].
  - split; [reflexivity|]. split; [intros m []|]. split; [exists []; reflexivity|].
    split; [intros e He; discriminate|reflexivity].
  - destruct o as [[|b bs]| |]; cbn [fst snd].
    + split; [reflexivity|]. split; [intros m []|]. split; [eexists; reflexivity|].
      split; [intros e He; discriminate|discriminate].
    + destruct (parse (b :: bs)) as [e|] eqn:Hp; cbn [fst snd].
      * split; [reflexivity|]. split; [intros m [<-|[]]; discriminate|].
        split; [eexists; reflexivity|]. split; [|discriminate].
        intros e' He'. injection He' as <-. right. exists (b :: bs). split; [reflexivity|exact Hp].
      * destruct (socket_reader parse reads) as [acts st]. cbn [fst snd] in IH |- *.
        destruct IH as (H1 & H2 & [k Hk] & H4 & H5). rewrite parsed_cons.
        split; [cbn [map app]; f_equal; exact H1|].
        split; [intros m [<-|Hin]; [discriminate|exact (H2 m Hin)]|].
        split; [exists k; cbn [flat_map app]; rewrite Hk; reflexivity|].
        split.
        -- intros e He. destruct (H4 e He) as [Hc|(m & Hl & Hpm)]; [left; exact Hc|].
           right. exists m. split; [rewrite last_cons, Hl; reflexivity|exact Hpm].
        -- intros Hw. cbn [flat_map app]. rewrite (H5 Hw). reflexivity.
    + split; [reflexivity|]. split; [intros m []|]. split; [eexists; reflexivity|].
      split; [intros e He; discriminate|discriminate].
    + split; [reflexivity|]. split; [intros m []|]. split; [eexists; reflexivity|].
      split; [intros e He; left; injection He as <-; reflexivity|discriminate].
Qed.

Lemma X16_witness :
  let parse := fun m : list Byte.byte => if bool_decide (m = [Byte.x00]) then Some (Raised 1)
                                         else None in
  let reads := [Data [Byte.x41]; Data [Byte.x00]; Data [Byte.x42]] in
  let r := socket_reader parse reads in
  (forall e, snd r = Failed e ->
     e = CancelledError \/ exists m, last (parsed (fst r)) = Some m /\ parse m = Some e) /\
  snd r = Failed (Raised 1).
Proof.
  intros parse reads r. split; [|vm_compute; reflexivity].
  exact (proj1 (proj2 (proj2 (proj2 (X16_socket_reader_actions parse reads))))).
Defined.

(** *** [connect] and [stop] *)

(** With the base class's [_identify_connection], [connect()] on a
    communicator without a read task sets the write limits, resets the input
    buffer and clears the reader's buffer, then raises [NotImplementedError]
    before any read task exists; a following [stop()] then raises
    [AttributeError] ([None.cancel()]) and leaves the writer open.  With an
    identification that returns, [stop()] after [connect()] cancels the
    read task and closes the writer. *)
Theorem X17_connect_then_stop (pending : list Byte.byte) (s : comm) :
  read_task s = None ->
  let r := connect base_identify pending s in
  snd r = Some NotImplementedError /\ write_limits (fst r) = Some (2048, 1024) /\
  input_reset (fst r) = true /\ reader_buffer (fst r) = Some [] /\
  read_task (fst r) = None /\ writer_open (fst r) = Some true /\
  stop (fst r) = (fst r, Some AttributeError) /\
  stop (fst (connect None pending s)) =
    (mk_comm (Some false) (Some (2048, 1024)) true (Some []) (Some true), None).
Proof.
  intros Hn. cbv zeta. unfold connect, base_identify, stop. cbn. rewrite Hn.
  repeat split.
Qed.

Lemma X17_witness :
  read_task init_comm = None /\
  stop (fst (connect base_identify [Byte.x41] init_comm))
  = (fst (connect base_identify [Byte.x41] init_comm), Some AttributeError).
Proof.
  split; [reflexivity|].
  exact (proj1 (proj2 (proj2 (proj2 (proj2 (proj2 (proj2
           (X17_connect_then_stop [Byte.x41] init_comm eq_refl)))))))).
Defined.

(** *** The debug rendering *)

Lemma hex_digit_inj (n m : nat) :
  (n < 16)%nat -> (m < 16)%nat -> hex_digit n = hex_digit m -> n = m.
Proof.
  intros Hn Hm H. apply (f_equal nat_of_ascii) in H. unfold hex_digit in H.
  destruct (n <? 10)%nat eqn:En, (m <? 10)%nat eqn:Em;
    rewrite !nat_ascii_embedding in H by lia;
    apply Nat.ltb_lt in En || apply Nat.ltb_ge in En;
    apply Nat.ltb_lt in Em || apply Nat.ltb_ge in Em; lia.
Qed.

Lemma hex_dump_cons (b : Byte.byte) (l : list Byte.byte) :
  hex_dump (b :: l) =
  String " " (String "0" (String "x" (String (hex_digit (Byte.to_nat b / 16))
    (String (hex_digit (Byte.to_nat b mod 16)) (hex_dump l))))).
Proof. reflexivity. Qed.

Lemma byte_of_digits (a b : Byte.byte) :
  hex_digit (Byte.to_nat a / 16) = hex_digit (Byte.to_nat b / 16) ->
  hex_digit (Byte.to_nat a mod 16) = hex_digit (Byte.to_nat b mod 16) -> a = b.
Proof.
  intros H1 H2. pose proof (Byte.to_nat_bounded a). pose proof (Byte.to_nat_bounded b).
  apply hex_digit_inj in H1; [|apply Nat.Div0.div_lt_upper_bound; lia
                              |apply Nat.Div0.div_lt_upper_bound; lia].
  apply hex_digit_inj in H2; [|apply Nat.mod_upper_bound; lia|apply Nat.mod_upper_bound; lia].
  assert (Hn : Byte.to_nat a = Byte.to_nat b).
  { rewrite (Nat.div_mod_eq (Byte.to_nat a) 16), (Nat.div_mod_eq (Byte.to_nat b) 16). lia. }
  pose proof (Byte.of_to_nat a) as Ha. rewrite Hn, Byte.of_to_nat in Ha. congruence.
Qed.

(** The rendering [''.join(" 0x%02x" % b for b in msg)] used when logging
    sent and received messages takes five characters per byte and loses
    nothing: two different messages never render alike. *)
Theorem X18_hex_dump_faithful (m : list Byte.byte) :
  String.length (hex_dump m) = (5 * length m)%nat /\
  (forall m', hex_dump m = hex_dump m' -> m = m').
Proof.
  split.
  - induction m as [|b m IH]; [reflexivity|]. rewrite hex_dump_cons. cbn [String.length length].
    rewrite IH. lia.
  - induction m as [|b m IH]; intros [|b' m'] H; try reflexivity;
      rewrite ?hex_dump_cons in H; try discriminate H.
    injection H as H1 H2 H3. rewrite (byte_of_digits b b' H1 H2), (IH m' H3). reflexivity.
Qed.

Lemma X18_witness :
  hex_dump [Byte.x0a; Byte.xff] = hex_dump [Byte.x0a; Byte.xff] /\
  [Byte.x0a; Byte.xff] = [Byte.x0a; Byte.xff].
Proof.
  split; [reflexivity|]. exact (proj2 (X18_hex_dump_faithful [Byte.x0a; Byte.xff]) _ eq_refl).
Defined.

(** *** Before [Timing.configure] *)

(** Until [configure] has set [secs_per_tick] (it is [None] at start),
    [msecs] and [secs] raise [TypeError], and [time_to_ticks] raises for
    every string ([ValueError] from [float()] or [TypeError]). *)
Theorem X19_unconfigured_conversions_raise (t : timing) (f : float) (time : string) :
  secs_per_tick t = None ->
  msecs t f = Err TypeError /\ secs t f = Err TypeError /\
  (exists e, time_to_ticks t time = Err e).
Proof.
  intros Hn.
  assert (Hm : forall g, msecs t g = Err TypeError)
    by (intros g; unfold msecs, spt_of; rewrite Hn; reflexivity).
  assert (Hs : forall g, secs t g = Err TypeError)
    by (intros g; unfold secs, spt_of; rewrite Hn; reflexivity).
  split; [apply Hm|]. split; [apply Hs|].
  unfold time_to_ticks. destruct (_ || _);
    (destruct (py_float_str _) as [g|e]; cbn [rbind]; [rewrite ?Hm, ?Hs|]; eexists; reflexivity).
Qed.

Lemma X19_witness :
  secs_per_tick Timing.initial = None /\
  (msecs Timing.initial 200 = Err TypeError /\ secs Timing.initial 200 = Err TypeError /\
   (exists e, time_to_ticks Timing.initial "200ms" = Err e)).
Proof.
  split; [reflexivity|].
  exact (X19_unconfigured_conversions_raise Timing.initial 200 "200ms" eq_refl).
Defined.

End Extras.
